(** * The filter engine of dynamic-filter

    A shallow embedding of [src/utils/filterEngine.ts]: nested field
    resolution ([getNestedValue]), the seven per-type predicates
    ([applyTextFilter] ... [applyBooleanFilter]), their dispatcher
    ([applyFilterCondition]), the AND-combining executor
    ([filterEmployees]) and the validator ([isValidFilterCondition]).

    The TypeScript annotations are erased at run time and every predicate
    receives its record value as [any], so values are modelled
    dynamically, as plain data: [undefined], [null], booleans, IEEE-754
    doubles, strings, arrays and objects with own properties.  A run-time
    [TypeError] is an explicit outcome of the [result] monad.

    The surroundings of the engine follow: the catalog of fields
    ([src/config/fieldConfig]), the operator table of [src/types], and
    the components of [src/components] as the functions their callbacks
    compute on the state they keep. *)

From Stdlib Require Import ZArith List String Ascii Bool Lia Floats DecimalString.
From stdpp Require Import gmap strings.
Import ListNotations.

Local Open Scope string_scope.
Local Open Scope list_scope.

(** ** Run-time values *)

(** Plain data as a record, a payload or a field can hold it.  Strings
    are sequences of code units (here below 256); arrays and objects are
    compared by identity in JavaScript, and two of them met at different
    places of a record or a payload are different allocations.  An object
    is a plain one: its own properties hold data, in the order they were
    added, and what it inherits it inherits from [Object.prototype]; an
    array has its items and nothing else of its own.  No value is a
    function, so a property named [toString] holds something that cannot
    be called. *)
#[warnings="-register-all"]
Inductive jsval : Type :=
| JUndefined
| JNull
| JBool (b : bool)
| JNum (x : float)
| JStr (s : string)
| JArr (items : list jsval)
| JObj (props : list (string * jsval)).

(** ** Outcomes: a value or a thrown exception *)

Inductive exn : Type := TypeError.

Inductive result (A : Type) : Type :=
| Ok (a : A)
| Throw (e : exn).
Arguments Ok {A} a.
Arguments Throw {A} e.

Definition bind {A B : Type} (r : result A) (k : A -> result B) : result B :=
  match r with
  | Ok a => k a
  | Throw e => Throw e
  end.

Notation "'let*' x ':=' r 'in' k" := (bind r (fun x => k))
  (at level 10, x name, r at level 100, k at level 200).

(** ** What the engine takes from its host

    Four things the code calls are fixed by the JavaScript host and not by
    the engine: the conversion between numbers and their decimal text,
    the date parser (whose accepted formats beyond ISO 8601 are
    implementation-defined) and the local time zone.  [LocalTZA t true]
    is the offset from UTC, in milliseconds, in force at the instant [t];
    [LocalTZA t false] is the offset by which the zone reads the local
    time [t], the one before the change where the clock repeats or skips
    that local time (ECMA-262, 21.4.1). *)
Class Host : Type := {
  StringToNumber : string -> float;
  NumberToString : float -> string;
  Date_parse : string -> option Z;
  LocalTZA : Z -> bool -> Z
}.

(** ** String built-ins *)

(** [s.startsWith(t)] *)
Fixpoint startsWith (s t : string) {struct t} : bool :=
  match t, s with
  | EmptyString, _ => true
  | String _ _, EmptyString => false
  | String c t', String d s' => Ascii.eqb d c && startsWith s' t'
  end.

(** [s.includes(t)]: [t] starts at some position of [s]. *)
Fixpoint includes (s t : string) : bool :=
  startsWith s t ||
  match s with
  | EmptyString => false
  | String _ s' => includes s' t
  end.

(** [s.endsWith(t)]: the last [t.length] code units of [s] are [t]. *)
Definition endsWith (s t : string) : bool :=
  let n := String.length s in
  let m := String.length t in
  (m <=? n)%nat && String.eqb (substring (n - m) m s) t.

(** [toLowerCase] on code units below 256: A-Z, and the Latin-1 capitals
    192-222 but the multiplication sign 215, move up by 32. *)
Definition lower_unit (c : ascii) : ascii :=
  let n := N_of_ascii c in
  if ((65 <=? n) && (n <=? 90) ||
      (192 <=? n) && (n <=? 222) && negb (n =? 215))%N
  then ascii_of_N (n + 32) else c.

Fixpoint toLowerCase (s : string) : string :=
  match s with
  | EmptyString => EmptyString
  | String c s' => String (lower_unit c) (toLowerCase s')
  end.

(** White space and line terminators below 256: TAB, LF, VT, FF, CR,
    SPACE and NBSP. *)
Definition is_white (c : ascii) : bool :=
  let n := N_of_ascii c in
  ((9 <=? n) && (n <=? 13) || (n =? 32) || (n =? 160))%N.

Fixpoint trimStart (s : string) : string :=
  match s with
  | EmptyString => EmptyString
  | String c s' => if is_white c then trimStart s' else s
  end.

Fixpoint string_rev (s : string) : string :=
  match s with
  | EmptyString => EmptyString
  | String c s' => string_rev s' ++ String c EmptyString
  end.

(** [s.trim()] *)
Definition trim (s : string) : string :=
  string_rev (trimStart (string_rev (trimStart s))).

(** [path.split('.')]: always at least one segment. *)
Fixpoint split_dot (s : string) : list string :=
  match s with
  | EmptyString => [EmptyString]
  | String c s' =>
      if Ascii.eqb c "." then EmptyString :: split_dot s'
      else match split_dot s' with
           | h :: t => String c h :: t
           | [] => [String c EmptyString]
           end
  end.

(** [xs.join(sep)] on strings already converted. *)
Fixpoint join (sep : string) (xs : list string) : string :=
  match xs with
  | [] => EmptyString
  | [x] => x
  | x :: rest => x ++ sep ++ join sep rest
  end.

(** ** Conversions *)

Definition is_nullish (v : jsval) : bool :=
  match v with
  | JUndefined | JNull => true
  | _ => false
  end.

(** [k] is an own property of an object with these properties. *)
Fixpoint has_own (props : list (string * jsval)) (k : string) : bool :=
  match props with
  | [] => false
  | (k', _) :: rest => String.eqb k' k || has_own rest k
  end.

(** An object is turned into a primitive by its [toString] and
    [valueOf].  Those it inherits give ["[object Object]"]; an own
    [toString] is data here, so it cannot be called, the inherited
    [valueOf] gives the object back, and the conversion throws.  An array
    converts its items in turn. *)
Fixpoint to_primitive_ok (v : jsval) : bool :=
  match v with
  | JObj props => negb (has_own props "toString")
  | JArr items => forallb to_primitive_ok items
  | _ => true
  end.

Section WithHost.
Context `{Host}.

(** [String(v)]; an array joins its items with commas, [null] and
    [undefined] items giving the empty string. *)
Fixpoint ToString (v : jsval) : result string :=
  match v with
  | JUndefined => Ok "undefined"
  | JNull => Ok "null"
  | JBool true => Ok "true"
  | JBool false => Ok "false"
  | JNum x => Ok (NumberToString x)
  | JStr s => Ok s
  | JArr items =>
      let* parts :=
        (fix each (xs : list jsval) : result (list string) :=
           match xs with
           | [] => Ok []
           | x :: rest =>
               let* part := (if is_nullish x then Ok "" else ToString x) in
               let* parts := each rest in
               Ok (part :: parts)
           end) items in
      Ok (join "," parts)
  | JObj props =>
      if has_own props "toString" then Throw TypeError
      else Ok "[object Object]"
  end.

(** [Number(v)]; arrays and objects go through their string form. *)
Definition ToNumber (v : jsval) : result float :=
  match v with
  | JUndefined => Ok nan
  | JNull => Ok 0%float
  | JBool true => Ok 1%float
  | JBool false => Ok 0%float
  | JNum x => Ok x
  | JStr s => Ok (StringToNumber s)
  | JArr _ | JObj _ => let* s := ToString v in Ok (StringToNumber s)
  end.

(** The global [isNaN(v)]. *)
Definition isNaN (v : jsval) : result bool :=
  let* x := ToNumber v in Ok (PrimFloat.is_nan x).

End WithHost.

(** [Boolean(v)] *)
Definition ToBoolean (v : jsval) : bool :=
  match v with
  | JUndefined | JNull => false
  | JBool b => b
  | JNum x => negb (PrimFloat.eqb x 0%float || PrimFloat.is_nan x)
  | JStr s => negb (String.eqb s "")
  | JArr _ | JObj _ => true
  end.

(** The number of a length. *)
Definition float_of_nat (n : nat) : float :=
  PrimFloat.of_uint63 (Uint63.of_Z (Z.of_nat n)).

(** The integer part of a finite double; [None] for NaN and the
    infinities. *)
Definition float_to_Z (x : float) : option Z :=
  match Prim2SF x with
  | S754_zero _ => Some 0%Z
  | S754_finite s m e =>
      let a := (if 0 <=? e then Z.pos m * 2 ^ e else Z.pos m / 2 ^ (- e))%Z in
      Some (if s then (- a)%Z else a)
  | S754_infinity _ | S754_nan => None
  end.

(** ** Property access *)

(** A canonical array index: ["0"], or digits without a leading zero. *)
Definition digit_of (c : ascii) : option N :=
  let n := N_of_ascii c in
  if ((48 <=? n) && (n <=? 57))%N then Some (n - 48)%N else None.

Fixpoint parse_digits (s : string) (acc : N) : option N :=
  match s with
  | EmptyString => Some acc
  | String c s' =>
      match digit_of c with
      | Some d => parse_digits s' (10 * acc + d)%N
      | None => None
      end
  end.

Definition parse_index (k : string) : option nat :=
  match k with
  | EmptyString => None
  | String c rest =>
      if Ascii.eqb c "0" && negb (String.eqb rest "") then None
      else option_map N.to_nat (parse_digits k 0%N)
  end.

Fixpoint own_prop (props : list (string * jsval)) (k : string) : jsval :=
  match props with
  | [] => JUndefined
  | (k', v) :: rest => if String.eqb k' k then v else own_prop rest k
  end.

(** The members every plain object inherits from [Object.prototype]. *)
Definition Object_prototype_names : list string :=
  [ "constructor"; "hasOwnProperty"; "isPrototypeOf"; "propertyIsEnumerable";
    "toLocaleString"; "toString"; "valueOf"; "__proto__";
    "__defineGetter__"; "__defineSetter__";
    "__lookupGetter__"; "__lookupSetter__" ].

Definition inherited (k : string) : bool :=
  existsb (String.eqb k) Object_prototype_names.

(** [v[k]] for a [v] that is neither [null] nor [undefined], on the data
    of [v]: the own properties of an object, the items and [length] of an
    array, the code units and [length] of a string.  A member that [v]
    inherits from its prototype (a method, [constructor], [__proto__]) is
    not data and has no value in [jsval]: [get_prop] answers [undefined]
    for it, which is what the program reads only where [reads_data] below
    holds.  The engine reads the payload of a condition by the fixed keys
    [value], [startDate], [endDate], [minAmount], [maxAmount] and
    [values]; none is inherited but [values] on an array, whose method
    fails every test the engine makes of it just as [undefined] does. *)
Definition get_prop (v : jsval) (k : string) : jsval :=
  match v with
  | JObj props => own_prop props k
  | JArr items =>
      if String.eqb k "length" then JNum (float_of_nat (List.length items))
      else match parse_index k with
           | Some i => nth i items JUndefined
           | None => JUndefined
           end
  | JStr s =>
      if String.eqb k "length" then JNum (float_of_nat (String.length s))
      else match parse_index k with
           | Some i =>
               match String.get i s with
               | Some c => JStr (String c EmptyString)
               | None => JUndefined
               end
           | None => JUndefined
           end
  | _ => JUndefined
  end.

(** [v.k]: reading a property of [null] or [undefined] throws. *)
Definition member (v : jsval) (k : string) : result jsval :=
  if is_nullish v then Throw TypeError else Ok (get_prop v k).

(** [v?.[k]] *)
Definition opt_member (v : jsval) (k : string) : jsval :=
  if is_nullish v then JUndefined else get_prop v k.

(** [v?.[k]] reads the data of [v]: [v] is absent, or [k] is an own
    property of the object, or a name the object neither has nor inherits,
    or an index or the [length] of an array or a string. *)
Definition reads_data (v : jsval) (k : string) : bool :=
  match v with
  | JUndefined | JNull => true
  | JObj props => has_own props k || negb (inherited k)
  | JArr _ | JStr _ =>
      String.eqb k "length"
      || match parse_index k with Some _ => true | None => false end
  | JBool _ | JNum _ => false
  end.

(** [v.toLowerCase()] and [v.trim()]: only a string has the method; a
    call on anything else is a [TypeError]. *)
Definition call_toLowerCase (v : jsval) : result string :=
  match v with
  | JStr s => Ok (toLowerCase s)
  | _ => Throw TypeError
  end.

Definition call_trim (v : jsval) : result string :=
  match v with
  | JStr s => Ok (trim s)
  | _ => Throw TypeError
  end.

(** ** Equality and order *)

(** [x === v] for a number [x]. *)
Definition num_strict_eq (x : float) (v : jsval) : bool :=
  match v with
  | JNum y => PrimFloat.eqb x y
  | _ => false
  end.

(** [s === v] for a string [s]. *)
Definition str_strict_eq (s : string) (v : jsval) : bool :=
  match v with
  | JStr t => String.eqb s t
  | _ => false
  end.

(** [b === v] for a boolean [b]. *)
Definition bool_strict_eq (b : bool) (v : jsval) : bool :=
  match v with
  | JBool c => Bool.eqb b c
  | _ => false
  end.

(** SameValueZero, the equality of [Array.prototype.includes]: NaN equals
    itself, the two zeros are equal, arrays and objects are equal only to
    themselves. *)
Definition same_value_zero (x y : jsval) : bool :=
  match x, y with
  | JUndefined, JUndefined => true
  | JNull, JNull => true
  | JBool a, JBool b => Bool.eqb a b
  | JNum a, JNum b => PrimFloat.eqb a b || PrimFloat.is_nan a && PrimFloat.is_nan b
  | JStr a, JStr b => String.eqb a b
  | _, _ => false
  end.

(** [items.includes(x)] *)
Definition Array_includes (items : list jsval) (x : jsval) : bool :=
  existsb (fun y => same_value_zero y x) items.

(** [xs.some(f)] is [existsb f xs]. *)

Section WithHostOrder.
Context `{Host}.

(** [a <= b] on two values: two strings (arrays and objects count by
    their string form) are compared by code units, anything else as
    numbers. *)
Definition is_stringy (v : jsval) : bool :=
  match v with
  | JStr _ | JArr _ | JObj _ => true
  | _ => false
  end.

Definition js_le (a b : jsval) : result bool :=
  if is_stringy a && is_stringy b
  then let* sa := ToString a in
       let* sb := ToString b in
       Ok (negb (String.ltb sb sa))
  else let* x := ToNumber a in
       let* y := ToNumber b in
       Ok (PrimFloat.leb x y).

End WithHostOrder.

(** ** Dates

    A [Date] holds a time value: whole milliseconds since the epoch, at
    most 8.64e15 in magnitude, or NaN for an invalid date ([None]).  All
    the arithmetic below stays under 2^53, where doubles are exact. *)

Definition msPerDay : Z := 86400000.

Definition TimeClip (t : Z) : option Z :=
  if (Z.abs t <=? 8640000000000000)%Z then Some t else None.

Definition Day (t : Z) : Z := (t / msPerDay)%Z.
Definition TimeWithinDay (t : Z) : Z := (t mod msPerDay)%Z.
Definition MakeTime (h m s ms : Z) : Z :=
  (h * 3600000 + m * 60000 + s * 1000 + ms)%Z.
Definition MakeDate (day time : Z) : Z := (day * msPerDay + time)%Z.

Section WithHostDates.
Context `{Host}.

(** [new Date(v)]: a string is parsed, arrays and objects are parsed
    through their string form, anything else is taken as a number of
    milliseconds. *)
Definition NewDate (v : jsval) : result (option Z) :=
  match v with
  | JStr s => Ok (Date_parse s ≫= TimeClip)
  | JArr _ | JObj _ => let* s := ToString v in Ok (Date_parse s ≫= TimeClip)
  | _ => let* x := ToNumber v in Ok (float_to_Z x ≫= TimeClip)
  end.

(** The local time of an instant, and the instant of a local time. *)
Definition LocalTime (t : Z) : Z := (t + LocalTZA t true)%Z.
Definition UTC (t : Z) : Z := (t - LocalTZA t false)%Z.

(** [d.setHours(h, m, s, ms)]: the same local calendar day, the given
    local time of day. *)
Definition setHours (d : option Z) (h m s ms : Z) : option Z :=
  match d with
  | None => None
  | Some t => TimeClip (UTC (MakeDate (Day (LocalTime t)) (MakeTime h m s ms)))
  end.

End WithHostDates.

(** [a >= b] and [a <= b] on two dates; false when either is invalid. *)
Definition date_ge (a b : option Z) : bool :=
  match a, b with
  | Some x, Some y => (y <=? x)%Z
  | _, _ => false
  end.

Definition date_le (a b : option Z) : bool := date_ge b a.

(** [isNaN(d.getTime())] *)
Definition invalid_date (d : option Z) : bool :=
  match d with
  | Some _ => false
  | None => true
  end.

(** ** Conditions *)

(** [FilterCondition] of [src/types].  [operator] and [fieldType] are the
    strings the [switch] statements compare, and [value] is whatever the
    caller put there: the casts [as TextFilterValue] ... check nothing. *)
Record FilterCondition : Type := {
  id : string;
  field : string;
  operator : string;
  value : jsval;
  fieldType : string
}.

(** ** The engine *)

Section Engine.
Context `{Host}.

Definition getNestedValue (obj : jsval) (path : string) : jsval :=
  fold_left (fun current prop => opt_member current prop) (split_dot path) obj.

Definition applyTextFilter (value : jsval) (operator : string)
    (filterValue : jsval) : result bool :=
  if is_nullish value then Ok false else
  let* s := ToString value in
  let stringValue := toLowerCase s in
  let* v := member filterValue "value" in
  let* searchValue := call_toLowerCase v in
  Ok (if String.eqb operator "equals" then String.eqb stringValue searchValue
      else if String.eqb operator "contains" then includes stringValue searchValue
      else if String.eqb operator "startsWith" then startsWith stringValue searchValue
      else if String.eqb operator "endsWith" then endsWith stringValue searchValue
      else if String.eqb operator "doesNotContain"
           then negb (includes stringValue searchValue)
      else false).

Definition applyNumberFilter (value : jsval) (operator : string)
    (filterValue : jsval) : result bool :=
  if is_nullish value then Ok false else
  let* numValue := ToNumber value in
  let* filterNum := member filterValue "value" in
  let* notANumber :=
    (if PrimFloat.is_nan numValue then Ok true else isNaN filterNum) in
  if notANumber then Ok false else
  if String.eqb operator "equals"
  then Ok (num_strict_eq numValue filterNum)
  else if String.eqb operator "greaterThan"
  then let* y := ToNumber filterNum in Ok (PrimFloat.ltb y numValue)
  else if String.eqb operator "lessThan"
  then let* y := ToNumber filterNum in Ok (PrimFloat.ltb numValue y)
  else if String.eqb operator "greaterThanOrEqual"
  then let* y := ToNumber filterNum in Ok (PrimFloat.leb y numValue)
  else if String.eqb operator "lessThanOrEqual"
  then let* y := ToNumber filterNum in Ok (PrimFloat.leb numValue y)
  else Ok false.

Definition applyDateFilter (value : jsval) (operator : string)
    (filterValue : jsval) : result bool :=
  if is_nullish value then Ok false else
  let* dateValue := NewDate value in
  let* s := member filterValue "startDate" in
  let* startDate := NewDate s in
  let* e := member filterValue "endDate" in
  let* endDate := NewDate e in
  if invalid_date dateValue || invalid_date startDate || invalid_date endDate
  then Ok false else
  if String.eqb operator "between" then
    let startDate := setHours startDate 0 0 0 0 in
    let endDate := setHours endDate 23 59 59 999 in
    Ok (date_ge dateValue startDate && date_le dateValue endDate)
  else Ok false.

Definition applyAmountFilter (value : jsval) (operator : string)
    (filterValue : jsval) : result bool :=
  if is_nullish value then Ok false else
  let* numValue := ToNumber value in
  let* minAmount := member filterValue "minAmount" in
  let* maxAmount := member filterValue "maxAmount" in
  let* notANumber :=
    (if PrimFloat.is_nan numValue then Ok true else
     let* a := isNaN minAmount in
     if a then Ok true else isNaN maxAmount) in
  if notANumber then Ok false else
  if String.eqb operator "between" then
    let* lo := ToNumber minAmount in
    let* hi := ToNumber maxAmount in
    Ok (PrimFloat.leb lo numValue && PrimFloat.leb numValue hi)
  else Ok false.

Definition applySingleSelectFilter (value : jsval) (operator : string)
    (filterValue : jsval) : result bool :=
  if is_nullish value then Ok false else
  let* stringValue := ToString value in
  let* selectedValue := member filterValue "value" in
  Ok (if String.eqb operator "is" then str_strict_eq stringValue selectedValue
      else if String.eqb operator "isNot"
           then negb (str_strict_eq stringValue selectedValue)
      else false).

Definition applyMultiSelectFilter (value : jsval) (operator : string)
    (filterValue : jsval) : result bool :=
  match value with
  | JArr items =>
      let* values := member filterValue "values" in
      match values with
      | JArr selected =>
          if (List.length selected =? 0)%nat then Ok false else
          Ok (if String.eqb operator "in"
              then existsb (fun selectedValue => Array_includes items selectedValue) selected
              else if String.eqb operator "notIn"
              then negb (existsb (fun selectedValue => Array_includes items selectedValue) selected)
              else false)
      | _ => Ok false
      end
  | _ => Ok false
  end.

Definition applyBooleanFilter (value : jsval) (operator : string)
    (filterValue : jsval) : result bool :=
  if is_nullish value then Ok false else
  if String.eqb operator "is" then
    let* v := member filterValue "value" in
    Ok (bool_strict_eq (ToBoolean value) v)
  else Ok false.

(** [fieldPath || condition.field]: a missing or empty [fieldPath] gives
    way to the condition's own field. *)
Definition effective_path (condition : FilterCondition)
    (fieldPath : option string) : string :=
  match fieldPath with
  | Some p => if String.eqb p "" then field condition else p
  | None => field condition
  end.

Definition applyFilterCondition (employee : jsval)
    (condition : FilterCondition) (fieldPath : option string) : result bool :=
  let path := effective_path condition fieldPath in
  let fieldValue := getNestedValue employee path in
  let ty := fieldType condition in
  if String.eqb ty "text"
  then applyTextFilter fieldValue (operator condition) (value condition)
  else if String.eqb ty "number"
  then applyNumberFilter fieldValue (operator condition) (value condition)
  else if String.eqb ty "date"
  then applyDateFilter fieldValue (operator condition) (value condition)
  else if String.eqb ty "amount"
  then applyAmountFilter fieldValue (operator condition) (value condition)
  else if String.eqb ty "singleSelect"
  then applySingleSelectFilter fieldValue (operator condition) (value condition)
  else if String.eqb ty "multiSelect"
  then applyMultiSelectFilter fieldValue (operator condition) (value condition)
  else if String.eqb ty "boolean"
  then applyBooleanFilter fieldValue (operator condition) (value condition)
  else Ok false.

(** [xs.every(f)] stops at the first [false]; [xs.filter(f)] calls [f]
    on every item, in order.  Either stops at the first exception. *)
Fixpoint Array_every {A : Type} (f : A -> result bool) (xs : list A)
    : result bool :=
  match xs with
  | [] => Ok true
  | x :: rest => let* b := f x in if b then Array_every f rest else Ok false
  end.

Fixpoint Array_filter {A : Type} (f : A -> result bool) (xs : list A)
    : result (list A) :=
  match xs with
  | [] => Ok []
  | x :: rest =>
      let* b := f x in
      let* kept := Array_filter f rest in
      Ok (if b then x :: kept else kept)
  end.

(** [fieldPaths[k]], the [fieldPath] argument of [applyFilterCondition]:
    the string [fieldPaths] holds for [k], or nothing where it has no such
    member.  [fieldPaths] is a plain object, so for a [k] of
    [Object_prototype_names] that it does not hold itself the lookup
    finds the inherited member: not a string, and truthy, so that
    [applyFilterCondition] takes it for the path and throws at
    [path.split]. *)
Definition path_of (fieldPaths : gmap string string) (k : string)
    : result (option string) :=
  match fieldPaths !! k with
  | Some p => Ok (Some p)
  | None => if inherited k then Throw TypeError else Ok None
  end.

Definition filterEmployees (employees : list jsval)
    (conditions : list FilterCondition) (fieldPaths : gmap string string)
    : result (list jsval) :=
  if (List.length conditions =? 0)%nat then Ok employees else
  Array_filter
    (fun employee =>
       Array_every
         (fun condition =>
            let* fieldPath := path_of fieldPaths (field condition) in
            applyFilterCondition employee condition fieldPath)
         conditions)
    employees.

(** The body of the [try] block of [isValidFilterCondition]. *)
Definition isValid_try (condition : FilterCondition) : result bool :=
  let ty := fieldType condition in
  let value := value condition in
  if String.eqb ty "text" then
    let* v := member value "value" in
    if ToBoolean v then
      let* t := call_trim v in Ok (0 <? String.length t)%nat
    else Ok false
  else if String.eqb ty "number" then
    let* v := member value "value" in
    let* notANumber := isNaN v in
    Ok (negb notANumber)
  else if String.eqb ty "date" then
    let* s := member value "startDate" in
    let* startDate := NewDate s in
    let* e := member value "endDate" in
    let* endDate := NewDate e in
    Ok (negb (invalid_date startDate) && negb (invalid_date endDate)
        && date_le startDate endDate)
  else if String.eqb ty "amount" then
    let* minAmount := member value "minAmount" in
    let* notANumber := isNaN minAmount in
    if notANumber then Ok false else
    let* maxAmount := member value "maxAmount" in
    let* notANumber := isNaN maxAmount in
    if notANumber then Ok false else
    js_le minAmount maxAmount
  else if String.eqb ty "singleSelect" then
    let* v := member value "value" in
    Ok (ToBoolean v)
  else if String.eqb ty "multiSelect" then
    let* values := member value "values" in
    Ok (match values with
        | JArr selected => (0 <? List.length selected)%nat
        | _ => false
        end)
  else if String.eqb ty "boolean" then
    let* v := member value "value" in
    Ok (match v with JBool _ => true | _ => false end)
  else Ok false.

(** [try { ... } catch { return false; }] *)
Definition isValidFilterCondition (condition : FilterCondition) : bool :=
  match isValid_try condition with
  | Ok b => b
  | Throw _ => false
  end.

End Engine.

(** ** A reference host

    A host to run the engine on concrete inputs: UTC as the local zone,
    and the built-ins restricted to the forms the examples use, on which
    they agree with ECMA-262.
    - [Date_parse] reads the date-only form [YYYY-MM-DD] (the form of an
      [<input type="date">] and of the mock data), as UTC midnight;
    - [StringToNumber] reads white space, an optional sign and up to 15
      decimal digits; the empty string is 0;
    - [NumberToString] prints NaN, the infinities and whole numbers
      below 1e21.
    Any other input is outside the reference host: it answers NaN (resp.
    the text of the integer part), and no example below depends on it. *)
Module RefHost.

Definition digits_value (s : string) : option Z :=
  match s with
  | EmptyString => None
  | _ => option_map Z.of_N (parse_digits s 0%N)
  end.

Definition is_leap (y : Z) : bool :=
  ((y mod 4 =? 0) && negb (y mod 100 =? 0) || (y mod 400 =? 0))%Z.

Definition days_in_month (y m : Z) : Z :=
  (if m =? 2 then (if is_leap y then 29 else 28)
   else if (m =? 4) || (m =? 6) || (m =? 9) || (m =? 11) then 30
   else 31)%Z.

(** Days from 1970-01-01 to the civil date [y]-[m]-[d]. *)
Definition days_from_civil (y m d : Z) : Z :=
  (let y' := if m <=? 2 then y - 1 else y in
   let era := y' / 400 in
   let yoe := y' - era * 400 in
   let mp := (m + 9) mod 12 in
   let doy := (153 * mp + 2) / 5 + d - 1 in
   let doe := yoe * 365 + yoe / 4 - yoe / 100 + doy in
   era * 146097 + doe - 719468)%Z.

Definition parse_iso_date (s : string) : option Z :=
  if negb (String.length s =? 10)%nat then None else
  if negb (String.eqb (substring 4 1 s) "-" && String.eqb (substring 7 1 s) "-")
  then None else
  match digits_value (substring 0 4 s),
        digits_value (substring 5 2 s),
        digits_value (substring 8 2 s) with
  | Some y, Some m, Some d =>
      if ((1 <=? m) && (m <=? 12) && (1 <=? d) && (d <=? days_in_month y m))%Z
      then Some (days_from_civil y m d * msPerDay)%Z
      else None
  | _, _, _ => None
  end.

Definition float_of_Z (z : Z) : float :=
  let a := PrimFloat.of_uint63 (Uint63.of_Z (Z.abs z)) in
  if (z <? 0)%Z then PrimFloat.opp a else a.

Definition parse_number (s : string) : float :=
  let t := trim s in
  match t with
  | EmptyString => 0%float
  | String c rest =>
      let '(neg, ds) :=
        if Ascii.eqb c "-" then (true, rest)
        else if Ascii.eqb c "+" then (false, rest)
        else (false, t) in
      if (15 <? String.length ds)%nat then nan else
      match digits_value ds with
      | Some n => if neg then PrimFloat.opp (float_of_Z n) else float_of_Z n
      | None => nan
      end
  end.

Definition print_number (x : float) : string :=
  match float_to_Z x with
  | Some z => NilZero.string_of_int (Z.to_int z)
  | None =>
      if PrimFloat.is_nan x then "NaN"
      else if PrimFloat.ltb x 0%float then "-Infinity" else "Infinity"
  end.

#[export] Instance utc : Host := {
  StringToNumber := parse_number;
  NumberToString := print_number;
  Date_parse := parse_iso_date;
  LocalTZA := fun _ _ => 0%Z
}.

End RefHost.

(** ** A host whose clock is set back

    The reference host in a zone that is one hour ahead of UTC until the
    clock reaches the end of 1970-01-01 and is set back by one hour: the
    last hour of that day runs twice, and its second run begins at the
    instant 82800000.  A local time of the repeated hour is read as its
    first run. *)
Module ClockBack.

Definition zone : Host := {|
  StringToNumber := RefHost.parse_number;
  NumberToString := RefHost.print_number;
  Date_parse := RefHost.parse_iso_date;
  LocalTZA := fun t isUTC =>
    if isUTC
    then (if (t <? 82800000)%Z then 3600000%Z else 0%Z)
    else (if (t <? 86400000)%Z then 3600000%Z else 0%Z)
|}.

End ClockBack.

(** ** Building records and conditions *)

Definition obj1 (k : string) (v : jsval) : jsval := JObj [(k, v)].

Definition strs (xs : list string) : jsval := JArr (map JStr xs).

Definition cond (f op ty : string) (v : jsval) : FilterCondition :=
  {| id := "c"; field := f; operator := op; value := v; fieldType := ty |}.

(** ** Vocabulary of the properties *)

Section Vocabulary.
Context `{Host}.

(** One condition on one record, with the path the executor looks up. *)
Definition evaluate (fieldPaths : gmap string string) (employee : jsval)
    (condition : FilterCondition) : result bool :=
  let* fieldPath := path_of fieldPaths (field condition) in
  applyFilterCondition employee condition fieldPath.

(** The condition evaluates to [true]. *)
Definition holds (fieldPaths : gmap string string) (employee : jsval)
    (condition : FilterCondition) : bool :=
  match evaluate fieldPaths employee condition with
  | Ok true => true
  | _ => false
  end.

(** The records that satisfy every condition, in their order. *)
Definition matching (fieldPaths : gmap string string)
    (conditions : list FilterCondition) (employees : list jsval) : list jsval :=
  List.filter (fun r => forallb (holds fieldPaths r) conditions) employees.

(** The local calendar day of a time value. *)
Definition local_day (t : Z) : Z := Day (LocalTime t).

(** The instants the zone gives to the local times 00:00:00.000 and
    23:59:59.999 of the day [d]. *)
Definition first_ms (d : Z) : Z := UTC (MakeDate d (MakeTime 0 0 0 0)).
Definition last_ms (d : Z) : Z := UTC (MakeDate d (MakeTime 23 59 59 999)).

(** The local day [d] is one run of instants, from the one the zone gives
    to its 00:00:00.000 to the one it gives to its 23:59:59.999, and the
    clock shows these two times at these two instants.  So it is on every
    day whose two ends the clock neither repeats nor skips; a change of
    offset inside the day leaves it so. *)
Definition whole_day (d : Z) : Prop :=
  LocalTime (first_ms d) = MakeDate d (MakeTime 0 0 0 0) /\
  LocalTime (last_ms d) = MakeDate d (MakeTime 23 59 59 999) /\
  forall t, local_day t = d <-> (first_ms d <= t <= last_ms d)%Z.

(** The path the executor takes for a condition; the condition's own
    field where the lookup gives none to [applyFilterCondition]. *)
Definition path_taken (fieldPaths : gmap string string)
    (condition : FilterCondition) : string :=
  effective_path condition (fieldPaths !! field condition).

End Vocabulary.

(** Every step of the path reads the data of the record. *)
Fixpoint walk_in_data (v : jsval) (keys : list string) : bool :=
  match keys with
  | [] => true
  | k :: rest => reads_data v k && walk_in_data (opt_member v k) rest
  end.

Definition resolves_in_data (obj : jsval) (path : string) : bool :=
  walk_in_data obj (split_dot path).

(** The record is plain data along a path: the path resolves within the
    data of the record, and what it resolves to converts to a primitive
    value (no object with a [toString] of its own in it). *)
Definition plain_along (obj : jsval) (path : string) : bool :=
  resolves_in_data obj path && to_primitive_ok (getNestedValue obj path).

(** The lookup of the condition's field in [fieldPaths] finds a string or
    nothing, not a member [fieldPaths] inherits. *)
Definition field_declared (fieldPaths : gmap string string)
    (condition : FilterCondition) : bool :=
  match fieldPaths !! field condition with
  | Some _ => true
  | None => negb (inherited (field condition))
  end.

(** The record and the condition are in the domain of the model: see
    [get_prop], [path_of] and [to_primitive_ok]. *)
Definition in_scope (fieldPaths : gmap string string) (employee : jsval)
    (condition : FilterCondition) : bool :=
  field_declared fieldPaths condition
  && plain_along employee (path_taken fieldPaths condition).

(** The payload has the shape [src/types] declares for the field type:
    [TextFilterValue] ... [BooleanFilterValue]. *)
Definition is_string (v : jsval) : bool :=
  match v with JStr _ => true | _ => false end.

Definition is_number (v : jsval) : bool :=
  match v with JNum _ => true | _ => false end.

Definition payload_matches (ty : string) (v : jsval) : bool :=
  match v with
  | JObj _ =>
      if String.eqb ty "text" then is_string (get_prop v "value")
      else if String.eqb ty "number" then is_number (get_prop v "value")
      else if String.eqb ty "date"
      then is_string (get_prop v "startDate") && is_string (get_prop v "endDate")
      else if String.eqb ty "amount"
      then is_number (get_prop v "minAmount") && is_number (get_prop v "maxAmount")
      else if String.eqb ty "singleSelect" then is_string (get_prop v "value")
      else if String.eqb ty "multiSelect"
      then match get_prop v "values" with
           | JArr selected => forallb is_string selected
           | _ => false
           end
      else if String.eqb ty "boolean"
      then match get_prop v "value" with JBool _ => true | _ => false end
      else false
  | _ => false
  end.

(** The payload is there, and what the family of the field type converts
    in it converts to a primitive value; the text family calls a method
    of strings on it, and needs a string. *)
Definition payload_converts (ty : string) (v : jsval) : bool :=
  negb (is_nullish v)
  && (if String.eqb ty "text" then is_string (get_prop v "value")
      else if String.eqb ty "number" then to_primitive_ok (get_prop v "value")
      else if String.eqb ty "date"
      then to_primitive_ok (get_prop v "startDate")
           && to_primitive_ok (get_prop v "endDate")
      else if String.eqb ty "amount"
      then to_primitive_ok (get_prop v "minAmount")
           && to_primitive_ok (get_prop v "maxAmount")
      else true).

(** Two arrays share an element, under the equality of [includes]. *)
Definition shares_element (items selected : list jsval) : Prop :=
  exists x y, In x items /\ In y selected /\ same_value_zero x y = true.

(** [t] occurs in [s]. *)
Definition substring_of (t s : string) : Prop :=
  exists pre post, s = (pre ++ t ++ post)%string.

(** ** Sample data

    The records and conditions of the concrete runs at the end. *)
Module Sample.

Definition employee (department : string) (salary : float) : jsval :=
  JObj [("department", JStr department); ("salary", JNum salary)].

Definition senior : jsval := employee "Engineering" 95000.
Definition junior : jsval := employee "Engineering" 70000.

Definition department_is_engineering : FilterCondition :=
  cond "department" "is" "singleSelect" (obj1 "value" (JStr "Engineering")).

Definition salary_from_90000 : FilterCondition :=
  cond "salary" "between" "amount"
       (JObj [("minAmount", JNum 90000); ("maxAmount", JNum 999999)]).

Definition ann : jsval := obj1 "name" (JStr "Ann").

(** A record whose [name] is an object with a [toString] of its own. *)
Definition odd_name : jsval := obj1 "name" (obj1 "toString" (JStr "x")).

(** A condition on a member every plain object inherits. *)
Definition constructor_contains_x : FilterCondition :=
  cond "constructor" "contains" "text" (obj1 "value" (JStr "x")).

Definition city_contains_x : FilterCondition :=
  cond "address.city" "contains" "text" (obj1 "value" (JStr "x")).

Definition date_range (startDate endDate : string) : jsval :=
  JObj [("startDate", JStr startDate); ("endDate", JStr endDate)].

(** A text condition that carries the payload of a date condition. *)
Definition name_with_date_payload : FilterCondition :=
  cond "name" "contains" "text" (date_range "2024-01-01" "2024-12-31").

Definition inverted_range : FilterCondition :=
  cond "joinDate" "between" "date" (date_range "2024-05-01" "2024-01-01").

Definition name_contains_ann : FilterCondition :=
  {| id := "c1"; field := "name"; operator := "contains";
     value := obj1 "value" (JStr "ann"); fieldType := "text" |}.

(** The same payload under an operator the text family does not have. *)
Definition name_between_ann : FilterCondition :=
  {| id := "c2"; field := "email"; operator := "between";
     value := obj1 "value" (JStr "ann"); fieldType := "text" |}.

End Sample.

(** ** The operator table

    [FIELD_TYPE_OPERATORS] of [src/types]: the operators each field type
    offers.  A field type outside the table has no entry. *)
Definition FIELD_TYPE_OPERATORS : list (string * list string) :=
  [ ("text", ["equals"; "contains"; "startsWith"; "endsWith"; "doesNotContain"]);
    ("number", ["equals"; "greaterThan"; "lessThan"; "greaterThanOrEqual";
                "lessThanOrEqual"]);
    ("date", ["between"]);
    ("amount", ["between"]);
    ("singleSelect", ["is"; "isNot"]);
    ("multiSelect", ["in"; "notIn"]);
    ("boolean", ["is"]) ].

(** [table[k]] on a table of own properties. *)
Fixpoint lookup_key {A : Type} (table : list (string * A)) (k : string) : option A :=
  match table with
  | [] => None
  | (k', a) :: rest => if String.eqb k' k then Some a else lookup_key rest k
  end.

(** The code units of a string. *)
Definition units (s : string) : list ascii := list_ascii_of_string s.

(** ** The field catalog

    [src/config/fieldConfig]: the filterable fields, each with its type,
    its operators, the options of a select and the path of a nested
    field. *)
Module fieldConfig.

Record FieldConfig : Type := {
  key : string;
  label : string;
  type : string;
  operators : list string;
  options : option (list string);
  path : option string
}.

Definition text_operators : list string :=
  ["equals"; "contains"; "startsWith"; "endsWith"; "doesNotContain"].

Definition number_operators : list string :=
  ["equals"; "greaterThan"; "lessThan"; "greaterThanOrEqual"; "lessThanOrEqual"].

Definition FIELD_CONFIGS : list FieldConfig :=
  [ {| key := "name"; label := "Name"; type := "text";
       operators := text_operators; options := None; path := None |};
    {| key := "email"; label := "Email"; type := "text";
       operators := text_operators; options := None; path := None |};
    {| key := "department"; label := "Department"; type := "singleSelect";
       operators := ["is"; "isNot"];
       options := Some ["Engineering"; "Marketing"; "Sales"; "Finance"; "HR";
                        "Product"; "Design"];
       path := None |};
    {| key := "role"; label := "Role"; type := "text";
       operators := text_operators; options := None; path := None |};
    {| key := "salary"; label := "Salary"; type := "amount";
       operators := ["between"]; options := None; path := None |};
    {| key := "joinDate"; label := "Join Date"; type := "date";
       operators := ["between"]; options := None; path := None |};
    {| key := "isActive"; label := "Active Status"; type := "boolean";
       operators := ["is"]; options := None; path := None |};
    {| key := "skills"; label := "Skills"; type := "multiSelect";
       operators := ["in"; "notIn"];
       options := Some ["React"; "TypeScript"; "Node.js"; "GraphQL"; "Python";
                        "AWS"; "Docker"; "Kubernetes"; "JavaScript"; "HTML";
                        "CSS"; "Java"; "Spring Boot"; "PostgreSQL"; "MongoDB";
                        "SQL"; "Terraform"; "Linux"; "Jenkins"; "SEO";
                        "Content Marketing"; "Analytics"; "Social Media";
                        "Excel"; "Figma"; "User Research"; "Prototyping";
                        "Agile"; "Scrum"];
       path := None |};
    {| key := "address.city"; label := "City"; type := "text";
       operators := text_operators; options := None;
       path := Some "address.city" |};
    {| key := "address.state"; label := "State"; type := "singleSelect";
       operators := ["is"; "isNot"];
       options := Some ["CA"; "NY"; "TX"; "FL"; "WA"; "IL"; "MA"; "CO"; "OR";
                        "GA"; "PA"; "AZ"; "NC"; "IN"; "OH"; "TN"; "MD"; "WI";
                        "NM"; "NE"; "MO"; "VA"; "KY"; "AK"; "NV"];
       path := Some "address.state" |};
    {| key := "address.country"; label := "Country"; type := "singleSelect";
       operators := ["is"; "isNot"]; options := Some ["USA"];
       path := Some "address.country" |};
    {| key := "projects"; label := "Number of Projects"; type := "number";
       operators := number_operators; options := None; path := None |};
    {| key := "lastReview"; label := "Last Review Date"; type := "date";
       operators := ["between"]; options := None; path := None |};
    {| key := "performanceRating"; label := "Performance Rating";
       type := "number";
       operators := number_operators; options := None; path := None |} ].

(** [configs.find(config => config.key === key)] *)
Definition find_config (configs : list FieldConfig) (k : string)
    : option FieldConfig :=
  List.find (fun config => String.eqb (key config) k) configs.

Definition getFieldConfig (k : string) : option FieldConfig :=
  find_config FIELD_CONFIGS k.

End fieldConfig.

(** ** The value inputs

    [src/components/FilterInputs]: what each input hands to [onChange]
    when the user edits it.  [parseFloat] is the host's. *)
Module FilterInputs.

(** The own properties an object spread [{...v}] copies. *)
Fixpoint indexed {A : Type} (f : A -> jsval) (i : nat) (xs : list A)
    : list (string * jsval) :=
  match xs with
  | [] => []
  | x :: rest =>
      (NilZero.string_of_uint (Nat.to_uint i), f x) :: indexed f (S i) rest
  end.

Definition spread (v : jsval) : list (string * jsval) :=
  match v with
  | JObj props => props
  | JArr items => indexed (fun x => x) 0 items
  | JStr s => indexed (fun c => JStr (String c EmptyString)) 0 (units s)
  | _ => []
  end.

(** [{...props, k: v}]: an existing key keeps its place. *)
Fixpoint set_prop (props : list (string * jsval)) (k : string) (v : jsval)
    : list (string * jsval) :=
  match props with
  | [] => [(k, v)]
  | (k', x) :: rest =>
      if String.eqb k' k then (k, v) :: rest else (k', x) :: set_prop rest k v
  end.

Definition spread_with (value : jsval) (k : string) (v : jsval) : jsval :=
  JObj (set_prop (spread value) k v).

Module TextInput.
Definition handleChange (text : string) : jsval := obj1 "value" (JStr text).
End TextInput.

Module SingleSelectInput.
Definition handleChange (selected : string) : jsval :=
  obj1 "value" (JStr selected).
End SingleSelectInput.

Module MultiSelectInput.
Definition handleChange (selectedValues : list string) : jsval :=
  obj1 "values" (strs selectedValues).
End MultiSelectInput.

Module BooleanInput.
Definition handleChange (checked : bool) : jsval :=
  obj1 "value" (JBool checked).
End BooleanInput.

Module DateRangeInput.
Definition handleStartDateChange (value : jsval) (text : string) : jsval :=
  spread_with value "startDate" (JStr text).
Definition handleEndDateChange (value : jsval) (text : string) : jsval :=
  spread_with value "endDate" (JStr text).
End DateRangeInput.

Section Numeric.
Variable parseFloat : string -> float.

(** [isNaN(numValue) ? 0 : numValue] *)
Definition typed_number (text : string) : float :=
  let numValue := parseFloat text in
  if PrimFloat.is_nan numValue then 0%float else numValue.

Definition NumberInput_handleChange (text : string) : jsval :=
  obj1 "value" (JNum (typed_number text)).

Definition AmountRangeInput_handleMinChange (value : jsval) (text : string)
    : jsval :=
  spread_with value "minAmount" (JNum (typed_number text)).

Definition AmountRangeInput_handleMaxChange (value : jsval) (text : string)
    : jsval :=
  spread_with value "maxAmount" (JNum (typed_number text)).

End Numeric.

End FilterInputs.

(** ** One filter row

    [src/components/FilterCondition]: the handlers of a row, each giving
    the condition it passes to [onChange], if it calls it. *)
Module ConditionRow.
Import fieldConfig.

Definition getDefaultValueForFieldType (fieldType : string) : jsval :=
  if String.eqb fieldType "text" then obj1 "value" (JStr "")
  else if String.eqb fieldType "number" then obj1 "value" (JNum 0)
  else if String.eqb fieldType "date"
  then JObj [("startDate", JStr ""); ("endDate", JStr "")]
  else if String.eqb fieldType "amount"
  then JObj [("minAmount", JNum 0); ("maxAmount", JNum 0)]
  else if String.eqb fieldType "singleSelect" then obj1 "value" (JStr "")
  else if String.eqb fieldType "multiSelect" then obj1 "values" (JArr [])
  else if String.eqb fieldType "boolean" then obj1 "value" (JBool false)
  else obj1 "value" (JStr "").

(** [operators[0]].  On an empty list JavaScript gives [undefined], which
    like the empty string is no operator of any family; no field of the
    catalog has an empty list. *)
Definition first_operator (ops : list string) : string :=
  match ops with
  | op :: _ => op
  | [] => ""
  end.

(** An unknown field key leaves the row alone: [onChange] is not
    called. *)
Definition handleFieldChange (condition : FilterCondition)
    (newFieldKey : string) : option FilterCondition :=
  match getFieldConfig newFieldKey with
  | None => None
  | Some newFieldConfig =>
      let defaultOperator := first_operator (operators newFieldConfig) in
      let defaultValue := getDefaultValueForFieldType (type newFieldConfig) in
      Some {| id := id condition;
              field := newFieldKey;
              operator := defaultOperator;
              value := defaultValue;
              fieldType := type newFieldConfig |}
  end.

Definition handleOperatorChange (condition : FilterCondition)
    (newOperator : string) : FilterCondition :=
  {| id := id condition;
     field := field condition;
     operator := newOperator;
     value := value condition;
     fieldType := fieldType condition |}.

Definition handleValueChange (condition : FilterCondition)
    (newValue : jsval) : FilterCondition :=
  {| id := id condition;
     field := field condition;
     operator := operator condition;
     value := newValue;
     fieldType := fieldType condition |}.

(** The input [renderValueInput] mounts: that of the type of the
    field's configuration, none for an unknown field or type. *)
Inductive input : Type :=
| TextInput
| NumberInput
| DateRangeInput
| AmountRangeInput
| SingleSelectInput
| MultiSelectInput
| BooleanInput.

Definition renderValueInput (condition : FilterCondition) : option input :=
  match getFieldConfig (field condition) with
  | None => None
  | Some fieldConfig =>
      let ty := type fieldConfig in
      if String.eqb ty "text" then Some TextInput
      else if String.eqb ty "number" then Some NumberInput
      else if String.eqb ty "date" then Some DateRangeInput
      else if String.eqb ty "amount" then Some AmountRangeInput
      else if String.eqb ty "singleSelect" then Some SingleSelectInput
      else if String.eqb ty "multiSelect" then Some MultiSelectInput
      else if String.eqb ty "boolean" then Some BooleanInput
      else None
  end.

(** What the user can do to an input. *)
Inductive edit : Type :=
| Typed (text : string)
| StartDatePicked (text : string)
| EndDatePicked (text : string)
| MinTyped (text : string)
| MaxTyped (text : string)
| OptionChosen (selected : string)
| OptionsChosen (selectedValues : list string)
| Switched (checked : bool).

(** What the user can do to a row: choose a field, choose one of the
    operators the menu lists for the field, or edit the mounted input. *)
Inductive action : Type :=
| ChooseField (newFieldKey : string)
| ChooseOperator (newOperator : string)
| Edit (e : edit).

Section Wiring.
Variable parseFloat : string -> float.

(** The value the mounted input passes to [handleValueChange], if the
    edit is one of its own. *)
Definition edited (mounted : input) (value : jsval) (e : edit) : option jsval :=
  match mounted, e with
  | TextInput, Typed text => Some (FilterInputs.TextInput.handleChange text)
  | NumberInput, Typed text =>
      Some (FilterInputs.NumberInput_handleChange parseFloat text)
  | DateRangeInput, StartDatePicked text =>
      Some (FilterInputs.DateRangeInput.handleStartDateChange value text)
  | DateRangeInput, EndDatePicked text =>
      Some (FilterInputs.DateRangeInput.handleEndDateChange value text)
  | AmountRangeInput, MinTyped text =>
      Some (FilterInputs.AmountRangeInput_handleMinChange parseFloat value text)
  | AmountRangeInput, MaxTyped text =>
      Some (FilterInputs.AmountRangeInput_handleMaxChange parseFloat value text)
  | SingleSelectInput, OptionChosen selected =>
      Some (FilterInputs.SingleSelectInput.handleChange selected)
  | MultiSelectInput, OptionsChosen selectedValues =>
      Some (FilterInputs.MultiSelectInput.handleChange selectedValues)
  | BooleanInput, Switched checked =>
      Some (FilterInputs.BooleanInput.handleChange checked)
  | _, _ => None
  end.

(** The condition a row passes to [onChange] on an action; [None] when
    nothing is passed. *)
Definition act (condition : FilterCondition) (a : action)
    : option FilterCondition :=
  match a with
  | ChooseField newFieldKey => handleFieldChange condition newFieldKey
  | ChooseOperator newOperator =>
      match getFieldConfig (field condition) with
      | Some fieldConfig =>
          if existsb (String.eqb newOperator) (operators fieldConfig)
          then Some (handleOperatorChange condition newOperator)
          else None
      | None => None
      end
  | Edit e =>
      match renderValueInput condition with
      | Some mounted =>
          option_map (handleValueChange condition)
                     (edited mounted (value condition) e)
      | None => None
      end
  end.

End Wiring.

End ConditionRow.

(** ** The builder

    [src/components/FilterBuilder], with the [filteredData] that [App]
    keeps for it: the state and the callbacks that change it. *)
Module Builder.
Import fieldConfig.

Record State : Type := {
  conditions : list FilterCondition;
  conditionErrors : gmap string bool;
  filteredData : list jsval
}.

(** [object[k] = v] on a plain object: the assignment makes [k] a
    property of the object, but for [__proto__], which goes to the setter
    the object inherits; the setter ignores a value that is not an
    object, and the object is left as it was. *)
Definition assign {A : Type} (k : string) (v : A) (object : gmap string A)
    : gmap string A :=
  if String.eqb k "__proto__" then object else <[k := v]> object.

(** [paths[config.key] = config.path] for each configuration that has a
    path. *)
Definition collect_paths (configs : list FieldConfig) : gmap string string :=
  fold_left
    (fun paths config =>
       match path config with
       | Some p => if String.eqb p "" then paths else assign (key config) p paths
       | None => paths
       end)
    configs ∅.

Definition fieldPaths : gmap string string := collect_paths FIELD_CONFIGS.

(** The fields of the first configuration, as [handleAddCondition]
    reads them from [FIELD_CONFIGS[0]]. *)
Definition new_condition (newId : string) (firstField : FieldConfig)
    : FilterCondition :=
  {| id := newId;
     field := key firstField;
     operator := ConditionRow.first_operator (operators firstField);
     value := ConditionRow.getDefaultValueForFieldType (type firstField);
     fieldType := type firstField |}.

(** [newId] stands for the identifier made of the clock and a random
    number.  The catalog is not empty: the second branch is never
    taken. *)
Definition handleAddCondition (newId : string) (st : State) : State :=
  match FIELD_CONFIGS with
  | firstField :: _ =>
      {| conditions := conditions st ++ [new_condition newId firstField];
         conditionErrors := conditionErrors st;
         filteredData := filteredData st |}
  | [] => st
  end.

Definition handleUpdateCondition (i : string)
    (updatedCondition : FilterCondition) (st : State) : State :=
  {| conditions :=
       map (fun condition =>
              if String.eqb (id condition) i then updatedCondition
              else condition)
           (conditions st);
     conditionErrors := conditionErrors st;
     filteredData := filteredData st |}.

Definition handleRemoveCondition (i : string) (st : State) : State :=
  {| conditions :=
       List.filter (fun condition => negb (String.eqb (id condition) i))
                   (conditions st);
     conditionErrors := delete i (conditionErrors st);
     filteredData := filteredData st |}.

Definition handleClearAll (data : list jsval) (st : State) : State :=
  {| conditions := []; conditionErrors := ∅; filteredData := data |}.

Section Apply.
Context `{Host}.

(** The loop of [handleApplyFilters]: the error flags and [hasErrors]. *)
Definition validate (conditions : list FilterCondition)
    : gmap string bool * bool :=
  fold_left
    (fun '(errors, hasErrors) condition =>
       if negb (isValidFilterCondition condition)
       then (assign (id condition) true errors, true)
       else (errors, hasErrors))
    conditions (∅, false).

Definition handleApplyFilters (data : list jsval) (st : State)
    : result State :=
  let '(errors, hasErrors) := validate (conditions st) in
  if hasErrors
  then Ok {| conditions := conditions st;
             conditionErrors := errors;
             filteredData := filteredData st |}
  else
    let* filtered := filterEmployees data (conditions st) fieldPaths in
    Ok {| conditions := conditions st;
          conditionErrors := errors;
          filteredData := filtered |}.

End Apply.

(** What the user can do to the builder.  A row is addressed by its
    place in the list; its callbacks get the [id] of its condition. *)
Inductive event : Type :=
| AddClicked (newId : string)
| RowAction (row : nat) (a : ConditionRow.action)
| RemoveClicked (row : nat)
| ClearAllClicked
| ApplyClicked.

Section Step.
Context `{Host}.
Variable parseFloat : string -> float.
Variable data : list jsval.

Definition step (st : State) (ev : event) : result State :=
  match ev with
  | AddClicked newId => Ok (handleAddCondition newId st)
  | RowAction row a =>
      match nth_error (conditions st) row with
      | Some condition =>
          match ConditionRow.act parseFloat condition a with
          | Some updated => Ok (handleUpdateCondition (id condition) updated st)
          | None => Ok st
          end
      | None => Ok st
      end
  | RemoveClicked row =>
      match nth_error (conditions st) row with
      | Some condition => Ok (handleRemoveCondition (id condition) st)
      | None => Ok st
      end
  | ClearAllClicked => Ok (handleClearAll data st)
  | ApplyClicked => handleApplyFilters data st
  end.

Fixpoint run (st : State) (evs : list event) : result State :=
  match evs with
  | [] => Ok st
  | ev :: rest => let* st' := step st ev in run st' rest
  end.


End Step.

End Builder.

(** ** The table header

    [src/components/DataTable]: the column and the direction of the
    sort. *)
Module Table.

Inductive SortDirection : Type := asc | desc.

Record Sort : Type := { orderBy : string; order : SortDirection }.

Definition handleRequestSort (property : string) (st : Sort) : Sort :=
  let isAsc :=
    String.eqb (orderBy st) property &&
    match order st with asc => true | desc => false end in
  {| orderBy := property; order := if isAsc then desc else asc |}.

End Table.

(** A condition as the data model wants it: its field is in the catalog,
    its type is the type of that field, its operator one of the field's
    operators and its payload of the shape of the type. *)
Definition well_formed (condition : FilterCondition) : Prop :=
  exists fieldConfig,
    fieldConfig.getFieldConfig (field condition) = Some fieldConfig /\
    fieldType condition = fieldConfig.type fieldConfig /\
    In (operator condition) (fieldConfig.operators fieldConfig) /\
    payload_matches (fieldType condition) (value condition) = true.

(** What the handlers rely on in an entry of the catalog. *)
Definition catalog_entry_ok (fc : fieldConfig.FieldConfig) : Prop :=
  fieldConfig.getFieldConfig (fieldConfig.key fc) = Some fc /\
  lookup_key FIELD_TYPE_OPERATORS (fieldConfig.type fc) =
    Some (fieldConfig.operators fc) /\
  fieldConfig.operators fc <> [] /\
  payload_matches (fieldConfig.type fc)
    (ConditionRow.getDefaultValueForFieldType (fieldConfig.type fc)) = true /\
  (forall p, fieldConfig.path fc = Some p -> p = fieldConfig.key fc).


(** A call returns a boolean, and that boolean is [true] exactly when
    [P] holds. *)
Definition returns_iff (r : result bool) (P : Prop) : Prop :=
  exists b, r = Ok b /\ (b = true <-> P).

(** * Properties *)

(** Case analysis on the tests of a chain of [if]s, outermost first. *)
Ltac split_ifs :=
  repeat match goal with
         | |- context [if ?b then _ else _] => destruct b
         end.

(** ** The result monad *)

Lemma exn_unique (e e' : exn) : e = e'.
Proof. destruct e, e'; reflexivity. Qed.

Lemma member_Ok (v : jsval) (k : string) :
  is_nullish v = false -> member v k = Ok (get_prop v k).
Proof. unfold member. intros ->. reflexivity. Qed.

Lemma member_Throw (v : jsval) (k : string) :
  is_nullish v = true -> member v k = Throw TypeError.
Proof. unfold member. intros ->. reflexivity. Qed.

(** ** Conversions *)

Section Conversions.
Context `{Host}.

(** A value converts to a string exactly when no object with a
    [toString] of its own is met on the way. *)
Lemma ToString_total (v : jsval) :
  to_primitive_ok v = true -> exists s, ToString v = Ok s.
Proof.
  revert v. fix IH 1. intros [| |[|]|x|s|items|props]; simpl; intros Hok;
    try (eexists; reflexivity).
  - assert (E : exists parts,
               (fix each (xs : list jsval) : result (list string) :=
                  match xs with
                  | [] => Ok []
                  | x :: rest =>
                      let* part := (if is_nullish x then Ok ""%string else ToString x) in
                      let* parts := each rest in
                      Ok (part :: parts)
                  end) items = Ok parts).
    { induction items as [|x rest IHr]; [eexists; reflexivity|].
      simpl in Hok. apply andb_true_iff in Hok as [Hx Hrest].
      destruct (IHr Hrest) as [parts ->].
      destruct (is_nullish x); simpl; [eexists; reflexivity|].
      destruct (IH x Hx) as [part ->]. simpl. eexists. reflexivity. }
    destruct E as [parts ->]. simpl. eexists. reflexivity.
  - destruct (has_own props "toString"); [discriminate Hok|].
    eexists. reflexivity.
Qed.

Lemma ToString_Ok (v : jsval) (s : string) :
  ToString v = Ok s -> to_primitive_ok v = true.
Proof.
  revert v s. fix IH 1. intros [| |b|x|s'|items|props] s; simpl; intros E;
    try reflexivity.
  - revert s E. induction items as [|x rest IHr]; intros s E; [reflexivity|].
    simpl in *.
    destruct (is_nullish x) eqn:Hx.
    + simpl in E.
      match type of E with
      | (let* _ := (let* _ := ?r in _) in _) = _ =>
          destruct r as [parts|e] eqn:Er; simpl in E; [|discriminate E]
      end.
      rewrite (IHr (join "," parts)) by (simpl; reflexivity).
      destruct x; try discriminate Hx; reflexivity.
    + destruct (ToString x) as [part|e] eqn:Ex; simpl in E; [|discriminate E].
      rewrite (IH x part Ex). simpl.
      match type of E with
      | (let* _ := (let* _ := ?r in _) in _) = _ =>
          destruct r as [parts|e] eqn:Er; simpl in E; [|discriminate E]
      end.
      apply (IHr (join "," parts)). simpl. reflexivity.
  - destruct (has_own props "toString"); [discriminate E|reflexivity].
Qed.

Lemma ToNumber_Ok (v : jsval) (x : float) :
  ToNumber v = Ok x -> to_primitive_ok v = true.
Proof.
  destruct v as [| |b|y|s|items|props]; try reflexivity; unfold ToNumber;
    destruct (ToString _) as [s|e] eqn:E; simpl; try discriminate;
    intros _; apply (ToString_Ok _ s E).
Qed.

Lemma NewDate_Ok (v : jsval) (d : option Z) :
  NewDate v = Ok d -> to_primitive_ok v = true.
Proof.
  destruct v as [| |b|y|s|items|props]; try reflexivity; unfold NewDate;
    destruct (ToString _) as [s|e] eqn:E; simpl; try discriminate;
    intros _; apply (ToString_Ok _ s E).
Qed.

Lemma ToNumber_total (v : jsval) :
  to_primitive_ok v = true -> exists x, ToNumber v = Ok x.
Proof.
  intros Hok. destruct v as [| |[|]|x|s|items|props];
    try (eexists; reflexivity);
    unfold ToNumber; destruct (ToString_total _ Hok) as [s ->];
    eexists; reflexivity.
Qed.

Lemma NewDate_total (v : jsval) :
  to_primitive_ok v = true -> exists d, NewDate v = Ok d.
Proof.
  intros Hok. destruct v as [| |[|]|x|s|items|props];
    try (eexists; reflexivity);
    unfold NewDate; destruct (ToString_total _ Hok) as [s ->];
    eexists; reflexivity.
Qed.

Lemma isNaN_Ok (v : jsval) (b : bool) :
  isNaN v = Ok b -> exists x, ToNumber v = Ok x /\ b = PrimFloat.is_nan x.
Proof.
  unfold isNaN. destruct (ToNumber v) as [x|e]; simpl; [|discriminate].
  intros E. injection E as <-. exists x. auto.
Qed.

Lemma isNaN_total (v : jsval) (x : float) :
  ToNumber v = Ok x -> isNaN v = Ok (PrimFloat.is_nan x).
Proof. unfold isNaN. intros ->. reflexivity. Qed.

End Conversions.

Section Executor.
Context `{Host}.

(** ** The executor *)

Lemma path_of_Ok (fieldPaths : gmap string string) (k : string)
    (fieldPath : option string) :
  path_of fieldPaths k = Ok fieldPath -> fieldPath = fieldPaths !! k.
Proof.
  unfold path_of. destruct (fieldPaths !! k) as [p|].
  - intros E. injection E as <-. reflexivity.
  - destruct (inherited k); [discriminate|]. intros E. injection E as <-.
    reflexivity.
Qed.

Lemma path_of_declared (fieldPaths : gmap string string)
    (condition : FilterCondition) :
  field_declared fieldPaths condition = true ->
  path_of fieldPaths (field condition) = Ok (fieldPaths !! field condition).
Proof.
  unfold field_declared, path_of.
  destruct (fieldPaths !! field condition) as [p|]; [reflexivity|].
  destruct (inherited (field condition)); [discriminate|reflexivity].
Qed.

Lemma Array_every_forallb {A : Type} (f : A -> result bool) (xs : list A) (b : bool) :
  Array_every f xs = Ok b ->
  b = forallb (fun x => match f x with Ok true => true | _ => false end) xs.
Proof.
  revert b. induction xs as [|x rest IH]; simpl; intros b E.
  - injection E as <-. reflexivity.
  - destruct (f x) as [[|]|e]; simpl in *.
    + apply IH. exact E.
    + injection E as <-. reflexivity.
    + discriminate E.
Qed.

Lemma Array_every_total {A : Type} (f : A -> result bool) (xs : list A) :
  (forall x, In x xs -> exists b, f x = Ok b) ->
  exists b, Array_every f xs = Ok b.
Proof.
  induction xs as [|x rest IH]; simpl; intros Hf.
  - exists true. reflexivity.
  - destruct (Hf x (or_introl eq_refl)) as [[|] ->]; simpl.
    + apply IH. intros y Hy. apply Hf. right. exact Hy.
    + exists false. reflexivity.
Qed.

Lemma Array_filter_Ok {A : Type} (f : A -> result bool) (xs out : list A) :
  Array_filter f xs = Ok out ->
  out = List.filter (fun x => match f x with Ok true => true | _ => false end) xs.
Proof.
  revert out. induction xs as [|x rest IH]; simpl; intros out E.
  - injection E as <-. reflexivity.
  - destruct (f x) as [b|e]; simpl in E; [|discriminate E].
    destruct (Array_filter f rest) as [kept|e]; simpl in E; [|discriminate E].
    injection E as <-. rewrite <- (IH kept eq_refl).
    destruct b; reflexivity.
Qed.

Lemma Array_filter_total {A : Type} (f : A -> result bool) (xs : list A) :
  (forall x, In x xs -> exists b, f x = Ok b) ->
  exists out, Array_filter f xs = Ok out.
Proof.
  induction xs as [|x rest IH]; simpl; intros Hf.
  - exists []. reflexivity.
  - destruct (Hf x (or_introl eq_refl)) as [b ->]; simpl.
    destruct IH as [kept ->].
    + intros y Hy. apply Hf. right. exact Hy.
    + simpl. eexists. reflexivity.
Qed.

Lemma Array_every_cons {A : Type} (f : A -> result bool) (x : A) (rest : list A) :
  Array_every f (x :: rest) =
  (let* b := f x in if b then Array_every f rest else Ok false).
Proof. reflexivity. Qed.

Lemma Array_filter_cons {A : Type} (f : A -> result bool) (x : A) (rest : list A) :
  Array_filter f (x :: rest) =
  (let* b := f x in
   let* kept := Array_filter f rest in
   Ok (if b then x :: kept else kept)).
Proof. reflexivity. Qed.

Lemma filter_all (A : Type) (xs : list A) : List.filter (fun _ => true) xs = xs.
Proof. induction xs as [|x rest IH]; simpl; [|rewrite IH]; reflexivity. Qed.

Lemma filterEmployees_unfold (employees : list jsval)
    (conditions : list FilterCondition) (fieldPaths : gmap string string) :
  conditions <> [] ->
  filterEmployees employees conditions fieldPaths =
  Array_filter (fun r => Array_every (evaluate fieldPaths r) conditions) employees.
Proof.
  intros Hne. unfold filterEmployees.
  destruct conditions; [contradiction|]. reflexivity.
Qed.

Lemma Array_filter_Ok_total {A : Type} (f : A -> result bool) (xs out : list A) :
  Array_filter f xs = Ok out ->
  forall x, In x xs -> exists b, f x = Ok b.
Proof.
  revert out. induction xs as [|x rest IH]; simpl; intros out E y Hy.
  - contradiction.
  - destruct (f x) as [b|e] eqn:Fx; simpl in E; [|discriminate E].
    destruct (Array_filter f rest) as [kept|e]; simpl in E; [|discriminate E].
    destruct Hy as [<-|Hy].
    + exists b. exact Fx.
    + apply (IH kept eq_refl y Hy).
Qed.

Lemma holds_every (fieldPaths : gmap string string) (r : jsval)
    (conditions : list FilterCondition) (b : bool) :
  Array_every (evaluate fieldPaths r) conditions = Ok b ->
  b = forallb (holds fieldPaths r) conditions.
Proof. intros E. apply Array_every_forallb in E. exact E. Qed.

Lemma filterEmployees_Ok (employees : list jsval)
    (conditions : list FilterCondition) (fieldPaths : gmap string string)
    (out : list jsval) :
  filterEmployees employees conditions fieldPaths = Ok out ->
  out = matching fieldPaths conditions employees.
Proof.
  destruct conditions as [|c cs].
  - simpl. intros E. injection E as <-. unfold matching. simpl.
    symmetry. apply filter_all.
  - rewrite filterEmployees_unfold by discriminate.
    intros E. pose proof (Array_filter_Ok_total _ _ _ E) as Tot.
    apply Array_filter_Ok in E. subst out. unfold matching.
    apply List.filter_ext_in. intros r Hr.
    destruct (Tot r Hr) as [b Ev]. rewrite Ev.
    apply holds_every in Ev. rewrite <- Ev. destruct b; reflexivity.
Qed.

Lemma filterEmployees_total (employees : list jsval)
    (conditions : list FilterCondition) (fieldPaths : gmap string string) :
  (forall r c, In r employees -> In c conditions ->
     exists b, evaluate fieldPaths r c = Ok b) ->
  exists out, filterEmployees employees conditions fieldPaths = Ok out.
Proof.
  intros Hev. destruct conditions as [|c cs].
  - exists employees. reflexivity.
  - rewrite filterEmployees_unfold by discriminate.
    apply Array_filter_total. intros r Hr.
    apply Array_every_total. intros c' Hc'. apply Hev; assumption.
Qed.

(** C5. With no condition at all, [filterEmployees] returns the records
    it was given: the same elements in the same order, whatever the
    field-path map. *)
Theorem filterEmployees_no_conditions (employees : list jsval)
    (fieldPaths : gmap string string) :
  filterEmployees employees [] fieldPaths = Ok employees.
Proof. reflexivity. Qed.

(** C1. Whenever no condition faults on a record of the collection,
    [filterEmployees] returns exactly the records for which every
    condition of the list evaluates to [true], in the order they had in
    the input: the input sequence restricted to the matches. *)
Theorem filterEmployees_all_conditions (employees : list jsval)
    (conditions : list FilterCondition) (fieldPaths : gmap string string) :
  (forall r c, In r employees -> In c conditions ->
     evaluate fieldPaths r c <> Throw TypeError) ->
  filterEmployees employees conditions fieldPaths =
  Ok (List.filter (fun r => forallb (holds fieldPaths r) conditions) employees).
Proof.
  intros Hev.
  destruct (filterEmployees_total employees conditions fieldPaths) as [out E].
  - intros r c Hr Hc. specialize (Hev r c Hr Hc).
    destruct (evaluate fieldPaths r c) as [b|[]].
    + exists b. reflexivity.
    + contradiction.
  - rewrite E. f_equal. apply (filterEmployees_Ok _ _ _ _ E).
Qed.

(** C6. Two conditions applied together give what the first followed by
    the second gives: the AND of the executor is the sequential
    composition of its single-condition filters. *)
Theorem filterEmployees_two_conditions (employees : list jsval)
    (c1 c2 : FilterCondition) (fieldPaths : gmap string string) :
  filterEmployees employees [c1; c2] fieldPaths =
  (let* first := filterEmployees employees [c1] fieldPaths in
   filterEmployees first [c2] fieldPaths).
Proof.
  rewrite !filterEmployees_unfold by discriminate.
  transitivity
    (let* first := Array_filter (fun r => Array_every (evaluate fieldPaths r) [c1]) employees in
     Array_filter (fun r => Array_every (evaluate fieldPaths r) [c2]) first).
  2:{ destruct (Array_filter _ employees); simpl; [|reflexivity].
      rewrite filterEmployees_unfold by discriminate. reflexivity. }
  induction employees as [|r rest IH]; [reflexivity|].
  rewrite !Array_filter_cons, IH. clear IH.
  rewrite !Array_every_cons. simpl (Array_every _ []).
  destruct (evaluate fieldPaths r c1) as [[|]|e1]; simpl.
  - destruct (Array_filter _ rest) as [kept|e]; simpl; [reflexivity|].
    destruct (evaluate fieldPaths r c2) as [[|]|e2]; simpl;
      try reflexivity. f_equal. apply exn_unique.
  - destruct (Array_filter _ rest) as [kept|e]; simpl; [|reflexivity].
    destruct (Array_filter _ kept); reflexivity.
  - reflexivity.
Qed.

End Executor.

(** ** Absent values *)

Section Absent.
Context `{Host}.

(** Once the walk meets [null] or [undefined], every further step gives
    [undefined]. *)
Lemma walk_nullish (props : list string) (v : jsval) :
  is_nullish v = true -> props <> [] ->
  fold_left (fun current prop => opt_member current prop) props v = JUndefined.
Proof.
  intros Hv Hne. destruct props as [|p rest]; [contradiction|]. simpl.
  unfold opt_member at 2. rewrite Hv. clear.
  induction rest as [|q rest IH]; simpl; [reflexivity|exact IH].
Qed.

Lemma split_dot_nonempty (path : string) : split_dot path <> [].
Proof.
  destruct path as [|c rest]; cbn [split_dot].
  - discriminate.
  - destruct (Ascii.eqb c "."); [discriminate|].
    destruct (split_dot rest); discriminate.
Qed.

Lemma split_dot_segment (p1 p2 : string) :
  split_dot (p1 ++ "." ++ p2) = (split_dot p1 ++ split_dot p2)%list.
Proof.
  induction p1 as [|c p1 IH].
  - reflexivity.
  - change (String c p1 ++ "." ++ p2)%string with (String c (p1 ++ "." ++ p2)).
    cbn [split_dot]. rewrite IH.
    destruct (Ascii.eqb c "."); [reflexivity|].
    pose proof (split_dot_nonempty p1) as Hne.
    destruct (split_dot p1); [contradiction|reflexivity].
Qed.

(** The resolver: a path that goes through a missing or [null] segment
    resolves to [undefined], without a fault. *)
Lemma getNestedValue_absent_segment (obj : jsval) (p1 p2 : string) :
  is_nullish (getNestedValue obj p1) = true ->
  getNestedValue obj (p1 ++ "." ++ p2) = JUndefined.
Proof.
  intros Hv. unfold getNestedValue in *.
  rewrite split_dot_segment, fold_left_app.
  apply walk_nullish; [exact Hv|apply split_dot_nonempty].
Qed.

(** C7. A condition on a path that resolves to nothing for a record,
    [undefined] or [null], is [false] for that record, for every field
    type and every operator: the six scalar families by their null
    check, [multiSelect] because nothing absent is an array; an unknown
    field type is [false] as well. *)
Theorem absent_value_never_matches (employee : jsval)
    (condition : FilterCondition) (fieldPath : option string) :
  is_nullish (getNestedValue employee (effective_path condition fieldPath)) = true ->
  applyFilterCondition employee condition fieldPath = Ok false.
Proof.
  unfold applyFilterCondition.
  generalize dependent (getNestedValue employee (effective_path condition fieldPath)).
  intros v Habs.
  unfold applyTextFilter, applyNumberFilter, applyDateFilter,
    applyAmountFilter, applySingleSelectFilter, applyBooleanFilter.
  rewrite Habs.
  repeat match goal with
         | |- (if ?b then _ else _) = _ => destruct b; [reflexivity|]
         end.
  unfold applyMultiSelectFilter.
  destruct v; try discriminate Habs;
    destruct (String.eqb (fieldType condition) "multiSelect");
    try reflexivity;
    destruct (String.eqb (fieldType condition) "boolean"); reflexivity.
Qed.

(** Such a record is not in what the executor returns, whatever the
    other conditions are. *)
Lemma absent_value_excluded (employees out : list jsval)
    (conditions : list FilterCondition) (fieldPaths : gmap string string)
    (r : jsval) (c : FilterCondition) :
  In c conditions ->
  is_nullish (getNestedValue r (path_taken fieldPaths c)) = true ->
  filterEmployees employees conditions fieldPaths = Ok out ->
  ~ In r out.
Proof.
  unfold path_taken. intros Hc Habs E Hr. apply filterEmployees_Ok in E. subst out.
  unfold matching in Hr. apply filter_In in Hr as [_ Hall].
  rewrite forallb_forall in Hall. specialize (Hall c Hc).
  unfold holds, evaluate in Hall.
  destruct (path_of fieldPaths (field c)) as [fieldPath|e] eqn:Hp;
    simpl in Hall; [|discriminate Hall].
  apply path_of_Ok in Hp. subst fieldPath.
  unfold applyFilterCondition in Hall. revert Hall.
  generalize dependent (getNestedValue r (effective_path c (fieldPaths !! field c))).
  intros v Habs.
  unfold applyTextFilter, applyNumberFilter, applyDateFilter,
    applyAmountFilter, applySingleSelectFilter, applyBooleanFilter,
    applyMultiSelectFilter.
  rewrite Habs. destruct v; try discriminate Habs; split_ifs; discriminate.
Qed.

End Absent.

(** ** The validator *)

Section Validator.
Context `{Host}.

Lemma isValid_try_depends (c1 c2 : FilterCondition) :
  fieldType c1 = fieldType c2 -> value c1 = value c2 ->
  isValid_try c1 = isValid_try c2.
Proof. unfold isValid_try. intros -> ->. reflexivity. Qed.

(** C10. The validator reads the field type and the payload of a
    condition and nothing else: two conditions with the same [fieldType]
    and the same [value] get the same verdict, whatever their operator,
    field and id. *)
Theorem isValidFilterCondition_ignores_operator (c1 c2 : FilterCondition) :
  fieldType c1 = fieldType c2 -> value c1 = value c2 ->
  isValidFilterCondition c1 = isValidFilterCondition c2.
Proof.
  intros Hty Hval. unfold isValidFilterCondition.
  rewrite (isValid_try_depends c1 c2 Hty Hval). reflexivity.
Qed.

Lemma isValid_try_date (condition : FilterCondition) :
  fieldType condition = "date" ->
  isValid_try condition =
  (let* s := member (value condition) "startDate" in
   let* startDate := NewDate s in
   let* e := member (value condition) "endDate" in
   let* endDate := NewDate e in
   Ok (negb (invalid_date startDate) && negb (invalid_date endDate)
       && date_le startDate endDate)).
Proof. intros Hty. unfold isValid_try. rewrite Hty. reflexivity. Qed.

Lemma valid_dates_iff (d1 d2 : option Z) :
  negb (invalid_date d1) && negb (invalid_date d2) && date_le d1 d2 = true <->
  exists ts te, d1 = Some ts /\ d2 = Some te /\ (ts <= te)%Z.
Proof.
  destruct d1 as [ts|], d2 as [te|]; simpl;
    try (split; [discriminate | intros (? & ? & E1 & E2 & _); discriminate]).
  rewrite Z.leb_le. split.
  - intros Hle. exists ts, te. auto.
  - intros (ts' & te' & E1 & E2 & Hle). injection E1 as <-. injection E2 as <-.
    exact Hle.
Qed.

(** C8. A condition of type [date] is valid exactly when both its
    [startDate] and its [endDate] make a valid date and the first is not
    after the second. *)
Theorem date_condition_valid_iff (condition : FilterCondition) :
  fieldType condition = "date" ->
  isValidFilterCondition condition = true <->
  exists s e ts te,
    member (value condition) "startDate" = Ok s /\
    member (value condition) "endDate" = Ok e /\
    NewDate s = Ok (Some ts) /\ NewDate e = Ok (Some te) /\ (ts <= te)%Z.
Proof.
  intros Hty. unfold isValidFilterCondition.
  rewrite (isValid_try_date condition Hty).
  destruct (member (value condition) "startDate") as [s|x]; simpl.
  2:{ split; [discriminate|]. intros (s & e & ts & te & E & _). discriminate E. }
  destruct (NewDate s) as [d1|x] eqn:D1; simpl.
  2:{ split; [discriminate|].
      intros (s' & e & ts & te & E & _ & Ds & _). injection E as <-.
      rewrite D1 in Ds. discriminate Ds. }
  destruct (member (value condition) "endDate") as [e|x]; simpl.
  2:{ split; [discriminate|]. intros (s' & e & ts & te & _ & E & _). discriminate E. }
  destruct (NewDate e) as [d2|x] eqn:D2; simpl.
  2:{ split; [discriminate|].
      intros (s' & e' & ts & te & _ & E & _ & De & _). injection E as <-.
      rewrite D2 in De. discriminate De. }
  rewrite valid_dates_iff. split.
  - intros (ts & te & -> & -> & Hle). exists s, e, ts, te. auto.
  - intros (s' & e' & ts & te & E1 & E2 & Ds & De & Hle).
    injection E1 as <-. injection E2 as <-. rewrite D1 in Ds. rewrite D2 in De.
    injection Ds as ->. injection De as ->. exists ts, te. auto.
Qed.

(** An inverted range is reported invalid. *)
Lemma date_condition_inverted (condition : FilterCondition) (s e : jsval) (ts te : Z) :
  fieldType condition = "date" ->
  member (value condition) "startDate" = Ok s ->
  member (value condition) "endDate" = Ok e ->
  NewDate s = Ok (Some ts) -> NewDate e = Ok (Some te) -> (te < ts)%Z ->
  isValidFilterCondition condition = false.
Proof.
  intros Hty Es Ee Hs He Hlt. unfold isValidFilterCondition.
  rewrite (isValid_try_date condition Hty), Es. simpl. rewrite Hs. simpl.
  rewrite Ee. simpl. rewrite He. simpl. apply Z.leb_gt. exact Hlt.
Qed.

End Validator.

(** ** Strings *)

Local Open Scope string_scope.

Lemma startsWith_spec (s t : string) :
  startsWith s t = true <-> exists post, s = t ++ post.
Proof.
  revert s. induction t as [|c t IH]; intros s; simpl.
  - split; [intros _; exists s; reflexivity | reflexivity].
  - destruct s as [|d s]; simpl.
    + split; [discriminate | intros [post E]; discriminate E].
    + rewrite andb_true_iff, IH. split.
      * intros [Hc [post ->]]. apply Ascii.eqb_eq in Hc. subst d.
        exists post. reflexivity.
      * intros [post E]. injection E as -> ->. split.
        -- apply Ascii.eqb_refl.
        -- exists post. reflexivity.
Qed.

Lemma includes_spec (s t : string) :
  includes s t = true <-> substring_of t s.
Proof.
  unfold substring_of. induction s as [|d s IH].
  - simpl. rewrite orb_false_r, startsWith_spec. split.
    + intros [post E]. exists "", post. exact E.
    + intros (pre & post & E). destruct pre; [|discriminate E].
      exists post. exact E.
  - cbn [includes]. rewrite orb_true_iff, startsWith_spec, IH. split.
    + intros [[post E]|(pre & post & E)].
      * exists "", post. exact E.
      * exists (String d pre), post. simpl. rewrite E. reflexivity.
    + intros (pre & post & E). destruct pre as [|c pre].
      * left. exists post. exact E.
      * right. simpl in E. injection E as -> ->. exists pre, post. reflexivity.
Qed.

Lemma length_append (s t : string) :
  String.length (s ++ t) = (String.length s + String.length t)%nat.
Proof. induction s as [|c s IH]; simpl; [|rewrite IH]; reflexivity. Qed.

Lemma substring_whole (t : string) : substring 0 (String.length t) t = t.
Proof. induction t as [|c t IH]; simpl; [|rewrite IH]; reflexivity. Qed.

Lemma substring_after (pre t : string) (m : nat) :
  substring (String.length pre) m (pre ++ t) = substring 0 m t.
Proof. induction pre as [|c pre IH]; simpl; [reflexivity|exact IH]. Qed.

Lemma substring_split (s : string) (k : nat) :
  (k <= String.length s)%nat ->
  s = substring 0 k s ++ substring k (String.length s - k) s.
Proof.
  revert k. induction s as [|c s IH]; intros k Hk; simpl in *.
  - destruct k; reflexivity.
  - destruct k as [|k]; simpl.
    + rewrite substring_whole. reflexivity.
    + change (String c s =
              String c (substring 0 k s ++ substring k (String.length s - k) s)).
      f_equal. apply IH. lia.
Qed.

Lemma endsWith_spec (s t : string) :
  endsWith s t = true <-> exists pre, s = pre ++ t.
Proof.
  unfold endsWith. rewrite andb_true_iff, Nat.leb_le, String.eqb_eq. split.
  - intros [Hle E]. exists (substring 0 (String.length s - String.length t) s).
    rewrite (substring_split s (String.length s - String.length t)) at 1 by lia.
    replace (String.length s - (String.length s - String.length t))%nat
      with (String.length t) by lia.
    rewrite E. reflexivity.
  - intros [pre ->]. rewrite length_append. split; [lia|].
    replace (String.length pre + String.length t - String.length t)%nat
      with (String.length pre) by lia.
    rewrite substring_after. apply substring_whole.
Qed.

(** ** The text family *)

Section Text.
Context `{Host}.

Lemma applyTextFilter_present (v fv : jsval) (s q op : string) :
  is_nullish v = false -> ToString v = Ok s ->
  member fv "value" = Ok (JStr q) ->
  applyTextFilter v op fv =
  Ok (let stringValue := toLowerCase s in
      let searchValue := toLowerCase q in
      if String.eqb op "equals" then String.eqb stringValue searchValue
      else if String.eqb op "contains" then includes stringValue searchValue
      else if String.eqb op "startsWith" then startsWith stringValue searchValue
      else if String.eqb op "endsWith" then endsWith stringValue searchValue
      else if String.eqb op "doesNotContain"
           then negb (includes stringValue searchValue)
      else false).
Proof.
  intros Hv Hs Hq. unfold applyTextFilter. rewrite Hv, Hs. simpl.
  rewrite Hq. reflexivity.
Qed.

(** C9. In the text family the record's value, turned into the string
    [s] by [String], and the filter's string are both put in lower case
    before they are compared: [equals] is equality of the two lower-case
    forms, [contains] that the filter's occurs in the record's,
    [startsWith] and [endsWith] that it is a prefix, a suffix of it, and
    [doesNotContain] the negation of [contains]; so two inputs that
    differ only in case get the same answer from every operator. *)
Theorem text_filter_compares_lowercase (v fv : jsval) (s q : string) :
  is_nullish v = false ->
  ToString v = Ok s ->
  member fv "value" = Ok (JStr q) ->
  let sv := toLowerCase s in
  let qv := toLowerCase q in
  returns_iff (applyTextFilter v "equals" fv) (sv = qv) /\
  returns_iff (applyTextFilter v "contains" fv) (substring_of qv sv) /\
  returns_iff (applyTextFilter v "startsWith" fv) (exists post, sv = qv ++ post) /\
  returns_iff (applyTextFilter v "endsWith" fv) (exists pre, sv = pre ++ qv) /\
  applyTextFilter v "doesNotContain" fv =
    (let* b := applyTextFilter v "contains" fv in Ok (negb b)) /\
  (forall (op s' q' : string),
     toLowerCase s' = sv -> toLowerCase q' = qv ->
     applyTextFilter (JStr s') op (JObj [("value", JStr q')]) =
     applyTextFilter v op fv).
Proof.
  intros Hv Hs Hq sv qv.
  repeat split;
    try (rewrite (applyTextFilter_present v fv s q _ Hv Hs Hq); cbn -[includes];
         fold sv qv; eexists; split; [reflexivity|]).
  - apply String.eqb_eq.
  - apply includes_spec.
  - apply startsWith_spec.
  - apply endsWith_spec.
  - rewrite !(applyTextFilter_present v fv s q _ Hv Hs Hq). reflexivity.
  - intros op s' q' Hs' Hq'.
    rewrite (applyTextFilter_present v fv s q _ Hv Hs Hq).
    rewrite (applyTextFilter_present (JStr s') (JObj [("value", JStr q')]) s' q' op
               eq_refl eq_refl eq_refl).
    cbn zeta. rewrite Hs', Hq'. reflexivity.
Qed.

End Text.

(** ** The multiSelect family *)

Lemma Array_includes_spec (items : list jsval) (y : jsval) :
  Array_includes items y = true <->
  exists x, In x items /\ same_value_zero x y = true.
Proof. unfold Array_includes. apply existsb_exists. Qed.

Lemma some_includes_spec (items selected : list jsval) :
  existsb (fun y => Array_includes items y) selected = true <->
  shares_element items selected.
Proof.
  unfold shares_element. rewrite existsb_exists. split.
  - intros (y & Hy & Hin). apply Array_includes_spec in Hin as (x & Hx & E).
    exists x, y. auto.
  - intros (x & y & Hx & Hy & E). exists y. split; [exact Hy|].
    apply Array_includes_spec. exists x. auto.
Qed.

(** On arrays of strings, sharing an element is having a string in
    common. *)
Lemma shares_element_strs (xs ys : list string) :
  shares_element (map JStr xs) (map JStr ys) <->
  exists s, In s xs /\ In s ys.
Proof.
  unfold shares_element. split.
  - intros (x & y & Hx & Hy & E).
    apply in_map_iff in Hx as (a & <- & Ha).
    apply in_map_iff in Hy as (b & <- & Hb).
    simpl in E. apply String.eqb_eq in E. subst b. exists a. auto.
  - intros (a & Ha & Hb). exists (JStr a), (JStr a).
    repeat split; try (apply in_map; assumption).
    simpl. apply String.eqb_refl.
Qed.

Section MultiSelect.
Context `{Host}.

(** The guard of the family: without an array on the record's side, or
    without a non-empty array of selected values, both operators
    answer [false]. *)
Lemma multiSelect_guard (v fv : jsval) (op : string) :
  (forall items, v <> JArr items) \/
  (exists values, member fv "values" = Ok values /\
     forall y ys, values <> JArr (y :: ys)) ->
  applyMultiSelectFilter v op fv = Ok false.
Proof.
  intros [Hv|(values & Hm & Hvals)]; unfold applyMultiSelectFilter.
  - destruct v; try reflexivity. exfalso. apply (Hv items). reflexivity.
  - destruct v; try reflexivity. rewrite Hm. simpl.
    destruct values as [| | | | |[|y ys]|]; try reflexivity.
    exfalso. apply (Hvals y ys). reflexivity.
Qed.

(** C4, as the code has it.  When the record's value is an array and
    the filter's [values] is a non-empty array, [in] is [true] exactly
    when the two share an element, and [notIn] is the negation of [in]
    on the same two inputs. *)
Theorem multiSelect_in_notIn (items selected : list jsval) (fv : jsval) :
  member fv "values" = Ok (JArr selected) ->
  selected <> [] ->
  returns_iff (applyMultiSelectFilter (JArr items) "in" fv)
              (shares_element items selected) /\
  applyMultiSelectFilter (JArr items) "notIn" fv =
    (let* b := applyMultiSelectFilter (JArr items) "in" fv in Ok (negb b)).
Proof.
  intros Hm Hne. unfold applyMultiSelectFilter. rewrite Hm. simpl.
  destruct selected as [|y ys]; [contradiction|].
  cbn [List.length Nat.eqb]. split.
  - eexists. split; [reflexivity|]. apply some_includes_spec.
  - reflexivity.
Qed.

End MultiSelect.

(** ** The date family *)

Section Dates.
Context `{Host}.

Lemma TimeClip_Some (t u : Z) : TimeClip t = Some u -> u = t.
Proof. unfold TimeClip. destruct (_ <=? _)%Z; congruence. Qed.

(** [setHours(0, 0, 0, 0)] gives the instant of 00:00:00.000 of the
    local day, [setHours(23, 59, 59, 999)] that of its 23:59:59.999. *)
Lemma setHours_first (t a : Z) :
  setHours (Some t) 0 0 0 0 = Some a -> a = first_ms (local_day t).
Proof. unfold setHours. intros E. apply TimeClip_Some in E. exact E. Qed.

Lemma setHours_last (t b : Z) :
  setHours (Some t) 23 59 59 999 = Some b -> b = last_ms (local_day t).
Proof. unfold setHours. intros E. apply TimeClip_Some in E. exact E. Qed.

(** On a whole day, these two are the first and the last instant of the
    day, and the clock shows 00:00:00.000 and 23:59:59.999 there. *)
Lemma whole_day_bounds (t : Z) :
  whole_day (local_day t) ->
  (first_ms (local_day t) <= t <= last_ms (local_day t))%Z.
Proof. intros (_ & _ & W). apply W. reflexivity. Qed.

Lemma whole_day_first (d : Z) :
  whole_day d ->
  local_day (first_ms d) = d /\ TimeWithinDay (LocalTime (first_ms d)) = 0%Z.
Proof.
  intros (F & _ & _). unfold local_day. rewrite F.
  unfold Day, TimeWithinDay, MakeDate, MakeTime, msPerDay.
  split; Z.div_mod_to_equations; lia.
Qed.

Lemma whole_day_last (d : Z) :
  whole_day d ->
  local_day (last_ms d) = d /\
  TimeWithinDay (LocalTime (last_ms d)) = MakeTime 23 59 59 999.
Proof.
  intros (_ & L & _). unfold local_day. rewrite L.
  unfold Day, TimeWithinDay, MakeDate, MakeTime, msPerDay.
  split; Z.div_mod_to_equations; lia.
Qed.

(** Two whole days that are not the same day have no instant in common:
    if the first starts no later than the second ends, all of it comes
    before the second. *)
Lemma whole_days_apart (d1 d2 : Z) :
  whole_day d1 -> whole_day d2 -> d1 <> d2 ->
  (first_ms d1 <= last_ms d1)%Z -> (first_ms d2 <= last_ms d2)%Z ->
  (first_ms d1 <= last_ms d2)%Z ->
  (last_ms d1 < first_ms d2)%Z.
Proof.
  intros (_ & _ & W1) (_ & _ & W2) Hne N1 N2 Hle.
  destruct (Z.lt_ge_cases (last_ms d1) (first_ms d2)) as [Hlt|Hge]; [exact Hlt|].
  exfalso. apply Hne.
  rewrite <- (proj2 (W1 (Z.max (first_ms d1) (first_ms d2)))) by lia.
  apply W2. lia.
Qed.

Lemma applyDateFilter_between (v fv s e : jsval) (t ts te : Z) :
  is_nullish v = false ->
  member fv "startDate" = Ok s -> member fv "endDate" = Ok e ->
  NewDate v = Ok (Some t) -> NewDate s = Ok (Some ts) ->
  NewDate e = Ok (Some te) ->
  applyDateFilter v "between" fv =
  Ok (date_ge (Some t) (setHours (Some ts) 0 0 0 0)
      && date_le (Some t) (setHours (Some te) 23 59 59 999)).
Proof.
  intros Hv Hs He Dv Ds De. unfold applyDateFilter.
  rewrite Hv, Dv. simpl. rewrite Hs. simpl. rewrite Ds. simpl.
  rewrite He. simpl. rewrite De. reflexivity.
Qed.

(** A record dated on the day of either bound is within the normalised
    bounds, when the first is not after the second. *)
Lemma boundary_days_within (t ts te : Z) :
  whole_day (local_day ts) -> whole_day (local_day te) ->
  (first_ms (local_day ts) <= last_ms (local_day te))%Z ->
  local_day t = local_day ts \/ local_day t = local_day te ->
  (first_ms (local_day ts) <= t <= last_ms (local_day te))%Z.
Proof.
  intros Ws We Hle Hday.
  pose proof (whole_day_bounds ts Ws) as Bs.
  pose proof (whole_day_bounds te We) as Be.
  assert (Bt : (first_ms (local_day t) <= t <= last_ms (local_day t))%Z).
  { apply whole_day_bounds. destruct Hday as [-> | ->]; assumption. }
  destruct (Z.eq_dec (local_day ts) (local_day te)) as [E|Hne].
  - destruct Hday as [Hday|Hday]; rewrite Hday in Bt;
      [rewrite <- E | rewrite E]; exact Bt.
  - pose proof (whole_days_apart _ _ Ws We Hne ltac:(lia) ltac:(lia) Hle) as Hlt.
    destruct Hday as [Hday|Hday]; rewrite Hday in Bt; lia.
Qed.

(** C3, as the code has it.  For [between], [startDate] is moved to
    00:00:00.000 and [endDate] to 23:59:59.999 of their local calendar
    days, on days that are whole in the zone of the host: the one is then
    the first instant of its day and the other the last of its day.  The
    test is inclusive: as long as the first is not after the second,
    which is so whenever [startDate] is not after [endDate], a record
    dated on either of the two days matches. *)
Theorem date_between_whole_days (v fv s e : jsval) (t ts te a b : Z) :
  is_nullish v = false ->
  member fv "startDate" = Ok s -> member fv "endDate" = Ok e ->
  NewDate v = Ok (Some t) -> NewDate s = Ok (Some ts) ->
  NewDate e = Ok (Some te) ->
  setHours (Some ts) 0 0 0 0 = Some a ->
  setHours (Some te) 23 59 59 999 = Some b ->
  whole_day (local_day ts) -> whole_day (local_day te) ->
  (local_day a = local_day ts /\ TimeWithinDay (LocalTime a) = 0%Z /\
   forall u, local_day u = local_day ts -> (a <= u)%Z) /\
  (local_day b = local_day te /\
   TimeWithinDay (LocalTime b) = MakeTime 23 59 59 999 /\
   forall u, local_day u = local_day te -> (u <= b)%Z) /\
  applyDateFilter v "between" fv = Ok ((a <=? t)%Z && (t <=? b)%Z) /\
  ((ts <= te)%Z -> (a <= b)%Z) /\
  ((a <= b)%Z ->
   local_day t = local_day ts \/ local_day t = local_day te ->
   applyDateFilter v "between" fv = Ok true).
Proof.
  intros Hv Hs He Dv Ds De Ha Hb Ws We.
  rewrite (applyDateFilter_between v fv s e t ts te Hv Hs He Dv Ds De), Ha, Hb.
  cbn [date_ge date_le].
  apply setHours_first in Ha. apply setHours_last in Hb. subst a b.
  pose proof (whole_day_first _ Ws) as [A1 A2].
  pose proof (whole_day_last _ We) as [B1 B2].
  pose proof (whole_day_bounds ts Ws) as Bs.
  pose proof (whole_day_bounds te We) as Be.
  repeat split; try assumption.
  - intros u Hu. rewrite <- Hu. rewrite <- Hu in Ws.
    apply (whole_day_bounds u Ws).
  - intros u Hu. rewrite <- Hu. rewrite <- Hu in We.
    apply (whole_day_bounds u We).
  - lia.
  - intros Hle Hday. f_equal. apply andb_true_iff. rewrite !Z.leb_le.
    apply boundary_days_within; assumption.
Qed.

(** With the first bound after the second, no date is in the range. *)
Lemma date_between_inverted (v fv s e : jsval) (t ts te a b : Z) :
  is_nullish v = false ->
  member fv "startDate" = Ok s -> member fv "endDate" = Ok e ->
  NewDate v = Ok (Some t) -> NewDate s = Ok (Some ts) ->
  NewDate e = Ok (Some te) ->
  setHours (Some ts) 0 0 0 0 = Some a ->
  setHours (Some te) 23 59 59 999 = Some b ->
  (b < a)%Z ->
  applyDateFilter v "between" fv = Ok false.
Proof.
  intros Hv Hs He Dv Ds De Ha Hb Hlt.
  rewrite (applyDateFilter_between v fv s e t ts te Hv Hs He Dv Ds De), Ha, Hb.
  cbn [date_ge date_le]. f_equal. apply andb_false_iff. rewrite !Z.leb_gt. lia.
Qed.

End Dates.

(** ** Faults *)

Section Faults.
Context `{Host}.

(** No family faults on a record value that converts to a primitive
    value and a payload that does where the family converts it. *)
Lemma text_total (v fv : jsval) (op q : string) :
  to_primitive_ok v = true ->
  member fv "value" = Ok (JStr q) -> exists b, applyTextFilter v op fv = Ok b.
Proof.
  intros Hv Hq. unfold applyTextFilter.
  destruct (is_nullish v); [eexists; reflexivity|].
  destruct (ToString_total v Hv) as [s ->]. simpl. rewrite Hq. simpl.
  eexists. reflexivity.
Qed.

Lemma number_total (v fv : jsval) (op : string) :
  to_primitive_ok v = true -> is_nullish fv = false ->
  to_primitive_ok (get_prop fv "value") = true ->
  exists b, applyNumberFilter v op fv = Ok b.
Proof.
  intros Hv Hfv Hp. unfold applyNumberFilter.
  destruct (is_nullish v); [eexists; reflexivity|].
  destruct (ToNumber_total v Hv) as [x ->]. simpl.
  rewrite (member_Ok fv _ Hfv). simpl.
  destruct (ToNumber_total _ Hp) as [y Hy].
  rewrite (isNaN_total _ y Hy), Hy.
  destruct (PrimFloat.is_nan x); simpl; [eexists; reflexivity|].
  destruct (PrimFloat.is_nan y); [eexists; reflexivity|].
  split_ifs; simpl; eexists; reflexivity.
Qed.

Lemma date_total (v fv : jsval) (op : string) :
  to_primitive_ok v = true -> is_nullish fv = false ->
  to_primitive_ok (get_prop fv "startDate") = true ->
  to_primitive_ok (get_prop fv "endDate") = true ->
  exists b, applyDateFilter v op fv = Ok b.
Proof.
  intros Hv Hfv Hs He. unfold applyDateFilter.
  destruct (is_nullish v); [eexists; reflexivity|].
  destruct (NewDate_total v Hv) as [d ->]. simpl.
  rewrite !(member_Ok fv _ Hfv). simpl.
  destruct (NewDate_total _ Hs) as [ds ->]. simpl.
  destruct (NewDate_total _ He) as [de ->]. simpl.
  destruct (_ || _); [eexists; reflexivity|].
  destruct (String.eqb op "between"); eexists; reflexivity.
Qed.

Lemma amount_total (v fv : jsval) (op : string) :
  to_primitive_ok v = true -> is_nullish fv = false ->
  to_primitive_ok (get_prop fv "minAmount") = true ->
  to_primitive_ok (get_prop fv "maxAmount") = true ->
  exists b, applyAmountFilter v op fv = Ok b.
Proof.
  intros Hv Hfv Hlo Hhi. unfold applyAmountFilter.
  destruct (is_nullish v); [eexists; reflexivity|].
  destruct (ToNumber_total v Hv) as [x ->]. simpl.
  rewrite !(member_Ok fv _ Hfv). simpl.
  destruct (ToNumber_total _ Hlo) as [lo Elo].
  destruct (ToNumber_total _ Hhi) as [hi Ehi].
  rewrite (isNaN_total _ lo Elo), (isNaN_total _ hi Ehi), Elo, Ehi.
  destruct (PrimFloat.is_nan x); simpl; [eexists; reflexivity|].
  destruct (PrimFloat.is_nan lo); simpl; [eexists; reflexivity|].
  destruct (PrimFloat.is_nan hi); simpl; [eexists; reflexivity|].
  destruct (String.eqb op "between"); simpl; eexists; reflexivity.
Qed.

Lemma singleSelect_total (v fv : jsval) (op : string) :
  to_primitive_ok v = true -> is_nullish fv = false ->
  exists b, applySingleSelectFilter v op fv = Ok b.
Proof.
  intros Hv Hfv. unfold applySingleSelectFilter.
  destruct (is_nullish v); [eexists; reflexivity|].
  destruct (ToString_total v Hv) as [s ->]. simpl.
  rewrite (member_Ok fv _ Hfv). simpl. eexists. reflexivity.
Qed.

Lemma multiSelect_total (v fv : jsval) (op : string) :
  is_nullish fv = false -> exists b, applyMultiSelectFilter v op fv = Ok b.
Proof.
  intros Hfv. unfold applyMultiSelectFilter.
  rewrite (member_Ok fv _ Hfv). simpl.
  destruct v; try (eexists; reflexivity).
  destruct (get_prop fv "values"); try (eexists; reflexivity).
  destruct (_ =? _)%nat; eexists; reflexivity.
Qed.

Lemma boolean_total (v fv : jsval) (op : string) :
  is_nullish fv = false -> exists b, applyBooleanFilter v op fv = Ok b.
Proof.
  intros Hfv. unfold applyBooleanFilter.
  rewrite (member_Ok fv _ Hfv). simpl.
  destruct (is_nullish v); [eexists; reflexivity|].
  destruct (String.eqb op "is"); eexists; reflexivity.
Qed.

Lemma condition_total (employee : jsval) (condition : FilterCondition)
    (fieldPath : option string) :
  to_primitive_ok
    (getNestedValue employee (effective_path condition fieldPath)) = true ->
  payload_converts (fieldType condition) (value condition) = true ->
  exists b, applyFilterCondition employee condition fieldPath = Ok b.
Proof.
  intros Hv Hp. unfold payload_converts in Hp.
  apply andb_true_iff in Hp as [Hn Hp]. apply negb_true_iff in Hn.
  unfold applyFilterCondition.
  destruct (String.eqb (fieldType condition) "text").
  { destruct (get_prop (value condition) "value") as [| | | |q| |] eqn:Hq;
      try discriminate Hp.
    apply (text_total _ _ _ q Hv). rewrite (member_Ok _ _ Hn), Hq. reflexivity. }
  destruct (String.eqb (fieldType condition) "number").
  { apply number_total; assumption. }
  destruct (String.eqb (fieldType condition) "date").
  { apply andb_true_iff in Hp as [Hs He]. apply date_total; assumption. }
  destruct (String.eqb (fieldType condition) "amount").
  { apply andb_true_iff in Hp as [Hlo Hhi]. apply amount_total; assumption. }
  split_ifs;
    eauto using singleSelect_total, multiSelect_total, boolean_total.
Qed.

(** What a valid condition is sure to carry. *)
Lemma valid_payload (condition : FilterCondition) :
  isValidFilterCondition condition = true ->
  payload_converts (fieldType condition) (value condition) = true.
Proof.
  unfold isValidFilterCondition, isValid_try, payload_converts.
  destruct (is_nullish (value condition)) eqn:Hn.
  - rewrite !(member_Throw _ _ Hn). simpl.
    split_ifs; discriminate.
  - rewrite !(member_Ok _ _ Hn). simpl.
    destruct (String.eqb (fieldType condition) "text").
    { destruct (get_prop (value condition) "value"); simpl;
        try reflexivity; split_ifs; discriminate. }
    destruct (String.eqb (fieldType condition) "number").
    { destruct (isNaN _) as [b|e] eqn:E; simpl; [|discriminate].
      intros _. apply isNaN_Ok in E as (x & E & _). apply (ToNumber_Ok _ x E). }
    destruct (String.eqb (fieldType condition) "date").
    { destruct (NewDate (get_prop (value condition) "startDate")) as [ds|e] eqn:Es;
        simpl; [|discriminate].
      destruct (NewDate (get_prop (value condition) "endDate")) as [de|e] eqn:Ee;
        simpl; [|discriminate].
      intros _. rewrite (NewDate_Ok _ ds Es), (NewDate_Ok _ de Ee). reflexivity. }
    destruct (String.eqb (fieldType condition) "amount").
    { destruct (isNaN (get_prop (value condition) "minAmount")) as [[|]|e] eqn:Elo;
        simpl; try discriminate.
      destruct (isNaN (get_prop (value condition) "maxAmount")) as [[|]|e] eqn:Ehi;
        simpl; try discriminate.
      intros _.
      apply isNaN_Ok in Elo as (lo & Elo & _). apply isNaN_Ok in Ehi as (hi & Ehi & _).
      rewrite (ToNumber_Ok _ lo Elo), (ToNumber_Ok _ hi Ehi). reflexivity. }
    reflexivity.
Qed.

(** So does a payload of the declared shape of its field type. *)
Lemma matching_payload (ty : string) (v : jsval) :
  payload_matches ty v = true -> payload_converts ty v = true.
Proof.
  unfold payload_matches, payload_converts.
  destruct v as [| | | | | |props]; try discriminate.
  cbn [is_nullish negb andb].
  destruct (String.eqb ty "text"); [auto|].
  destruct (String.eqb ty "number").
  { destruct (get_prop _ "value"); try discriminate; reflexivity. }
  destruct (String.eqb ty "date").
  { destruct (get_prop _ "startDate"); try discriminate.
    destruct (get_prop _ "endDate"); try discriminate; reflexivity. }
  destruct (String.eqb ty "amount").
  { destruct (get_prop _ "minAmount"); try discriminate.
    destruct (get_prop _ "maxAmount"); try discriminate; reflexivity. }
  reflexivity.
Qed.

(** Within the domain of the model, a condition whose payload converts
    is evaluated without a fault. *)
Lemma evaluate_total (fieldPaths : gmap string string) (employee : jsval)
    (condition : FilterCondition) :
  in_scope fieldPaths employee condition = true ->
  payload_converts (fieldType condition) (value condition) = true ->
  exists b, evaluate fieldPaths employee condition = Ok b.
Proof.
  unfold in_scope, plain_along, path_taken. intros Hs Hp.
  apply andb_true_iff in Hs as [Hd Hs]. apply andb_true_iff in Hs as [_ Hv].
  unfold evaluate. rewrite (path_of_declared _ _ Hd). simpl.
  apply condition_total; assumption.
Qed.

(** C2, as the code has it.  The validator never raises: a fault while
    it inspects the payload is caught and reported as [false].  The
    predicates and the executor have no handler of their own; they are
    free of faults on the conditions the validator accepts, for every
    path map and every record within the domain of the model: the field
    of the condition is not a member the path map inherits, the path
    resolves within the data of the record, and what it resolves to
    converts to a primitive value. *)
Theorem validated_conditions_never_fault (employees : list jsval)
    (conditions : list FilterCondition) (fieldPaths : gmap string string) :
  Forall (fun c => isValidFilterCondition c = true) conditions ->
  (forall r c, In r employees -> In c conditions ->
     in_scope fieldPaths r c = true) ->
  (forall c, isValid_try c = Throw TypeError -> isValidFilterCondition c = false) /\
  (forall r c, In c conditions -> in_scope fieldPaths r c = true ->
     exists b, evaluate fieldPaths r c = Ok b) /\
  (exists out, filterEmployees employees conditions fieldPaths = Ok out).
Proof.
  intros Hvalid Hscope. rewrite Forall_forall in Hvalid.
  assert (Hev : forall r c, In c conditions -> in_scope fieldPaths r c = true ->
                  exists b, evaluate fieldPaths r c = Ok b).
  { intros r c Hc Hs. apply evaluate_total; [exact Hs|].
    apply valid_payload. apply Hvalid. apply list_elem_of_In. exact Hc. }
  repeat split.
  - intros c E. unfold isValidFilterCondition. rewrite E. reflexivity.
  - exact Hev.
  - apply filterEmployees_total. intros r c Hr Hc. apply Hev; [exact Hc|].
    apply Hscope; assumption.
Qed.

End Faults.

(** * Concrete runs on the reference host *)

Module Runs.
Import RefHost Sample.

(** The scenarios of the specification. *)

Example text_contains_ignores_case :
  applyFilterCondition (obj1 "role" (JStr "Senior Engineer"))
    (cond "role" "contains" "text" (obj1 "value" (JStr "engineer"))) None
  = Ok true.
Proof. reflexivity. Qed.

Example number_greaterThan :
  applyFilterCondition (obj1 "projects" (JNum 3))
    (cond "projects" "greaterThan" "number" (obj1 "value" (JNum 5))) None
  = Ok false.
Proof. reflexivity. Qed.

Example date_same_day :
  applyFilterCondition (obj1 "joinDate" (JStr "2023-06-15"))
    (cond "joinDate" "between" "date" (date_range "2023-06-15" "2023-06-15")) None
  = Ok true.
Proof. reflexivity. Qed.

Example multiSelect_no_overlap :
  applyFilterCondition (obj1 "skills" (strs ["React"; "SQL"]))
    (cond "skills" "notIn" "multiSelect" (obj1 "values" (strs ["Java"; "Python"])))
    None
  = Ok true.
Proof. reflexivity. Qed.

Example two_conditions :
  filterEmployees [senior; junior]
    [department_is_engineering; salary_from_90000] ∅
  = Ok [senior].
Proof. reflexivity. Qed.

Example inverted_range_invalid :
  isValidFilterCondition inverted_range = false.
Proof. reflexivity. Qed.

Example nested_path :
  getNestedValue (obj1 "address" (obj1 "city" (JStr "Pune"))) "address.city"
  = JStr "Pune".
Proof. reflexivity. Qed.

(** C1 on the two-condition scenario. *)
Lemma filterEmployees_all_conditions_run :
  filterEmployees [senior; junior]
    [department_is_engineering; salary_from_90000] ∅
  = Ok (List.filter
          (fun r => forallb (holds ∅ r)
                      [department_is_engineering; salary_from_90000])
          [senior; junior]).
Proof.
  apply (filterEmployees_all_conditions (H := utc)).
  intros r c [<-|[<-|[]]] [<-|[<-|[]]]; vm_compute; discriminate.
Defined.

(** C2: a text condition with the payload of a date condition makes the
    executor throw on a record that has the field. *)
Lemma filterEmployees_throws :
  filterEmployees [ann] [name_with_date_payload] ∅ = Throw TypeError.
Proof. reflexivity. Qed.

Lemma validated_conditions_never_fault_run :
  (forall c, isValid_try c = Throw TypeError -> isValidFilterCondition c = false) /\
  (forall r c, In c [department_is_engineering; salary_from_90000] ->
     in_scope ∅ r c = true -> exists b, evaluate ∅ r c = Ok b) /\
  (exists out,
     filterEmployees [senior; junior]
       [department_is_engineering; salary_from_90000] ∅ = Ok out).
Proof.
  apply (validated_conditions_never_fault (H := utc)).
  - repeat constructor.
  - intros r c [<-|[<-|[]]] [<-|[<-|[]]]; reflexivity.
Defined.

(** Outside the domain of the model the executor throws on valid
    conditions too: on a field that the path map inherits, and on a
    record whose value has a [toString] of its own. *)
Example inherited_field_throws :
  isValidFilterCondition constructor_contains_x = true /\
  filterEmployees [ann] [constructor_contains_x] ∅ = Throw TypeError.
Proof. split; reflexivity. Qed.

Example own_toString_throws :
  isValidFilterCondition name_contains_ann = true /\
  filterEmployees [odd_name] [name_contains_ann] ∅ = Throw TypeError.
Proof. split; reflexivity. Qed.

(** C3: with the range inverted, a record dated on the very day of
    [startDate] is left out. *)
Lemma date_between_start_day_excluded :
  NewDate (JStr "2024-05-01") = Ok (Some 1714521600000%Z) /\
  NewDate (JStr "2024-01-01") = Ok (Some 1704067200000%Z) /\
  applyDateFilter (JStr "2024-05-01") "between"
    (date_range "2024-05-01" "2024-01-01") = Ok false.
Proof. repeat split. Qed.

(** In the zone of the reference host every day is whole. *)
Lemma utc_whole_day (d : Z) : whole_day (H := utc) d.
Proof.
  unfold whole_day, first_ms, last_ms, local_day, LocalTime, UTC, Day,
    MakeDate, MakeTime, msPerDay. simpl.
  repeat split; try lia; intros; Z.div_mod_to_equations; lia.
Qed.

(** C3 in order: a record dated on the day of [endDate]. *)
Lemma date_between_whole_days_run :
  applyDateFilter (JStr "2023-06-16") "between"
    (date_range "2023-06-15" "2023-06-16") = Ok true.
Proof.
  refine (proj2 (proj2 (proj2 (proj2
            (date_between_whole_days (H := utc)
               (JStr "2023-06-16") (date_range "2023-06-15" "2023-06-16")
               (JStr "2023-06-15") (JStr "2023-06-16")
               1686873600000 1686787200000 1686873600000
               1686787200000 1686959999999
               eq_refl eq_refl eq_refl eq_refl eq_refl eq_refl eq_refl eq_refl
               (utc_whole_day _) (utc_whole_day _)))))
            _ _).
  - vm_compute. discriminate.
  - right. reflexivity.
Defined.

(** Where the clock is set back at midnight the day is not whole, and a
    record dated in the second run of its last hour is on the day of
    [endDate] and does not match. *)
Example clock_back_hour_excluded :
  local_day (H := ClockBack.zone) 82801000 = 0%Z /\
  NewDate (H := ClockBack.zone) (JStr "1970-01-01") = Ok (Some 0%Z) /\
  local_day (H := ClockBack.zone) 0 = 0%Z /\
  applyDateFilter (H := ClockBack.zone) (JNum 82801000) "between"
    (date_range "1970-01-01" "1970-01-01") = Ok false.
Proof. repeat split. Qed.

(** C4: with nothing selected, [in] and [notIn] are both [false]. *)
Lemma multiSelect_empty_selection :
  applyMultiSelectFilter (strs ["React"]) "in" (obj1 "values" (JArr [])) = Ok false /\
  applyMultiSelectFilter (strs ["React"]) "notIn" (obj1 "values" (JArr [])) = Ok false.
Proof. split; reflexivity. Qed.

Lemma multiSelect_in_notIn_run :
  returns_iff
    (applyMultiSelectFilter (strs ["React"; "SQL"]) "in"
       (obj1 "values" (strs ["Java"; "Python"])))
    (shares_element (map JStr ["React"; "SQL"]) (map JStr ["Java"; "Python"])) /\
  applyMultiSelectFilter (strs ["React"; "SQL"]) "notIn"
    (obj1 "values" (strs ["Java"; "Python"])) =
  (let* b := applyMultiSelectFilter (strs ["React"; "SQL"]) "in"
               (obj1 "values" (strs ["Java"; "Python"])) in
   Ok (negb b)).
Proof.
  apply multiSelect_in_notIn; [reflexivity | discriminate].
Defined.

(** C7: [ann] has no address. *)
Lemma absent_value_never_matches_run :
  applyFilterCondition ann city_contains_x None = Ok false.
Proof.
  apply (absent_value_never_matches (H := utc)). reflexivity.
Defined.

(** C8 on the inverted range of the specification. *)
Lemma date_condition_valid_iff_run :
  isValidFilterCondition inverted_range = true <->
  exists s e ts te,
    member (value inverted_range) "startDate" = Ok s /\
    member (value inverted_range) "endDate" = Ok e /\
    NewDate s = Ok (Some ts) /\ NewDate e = Ok (Some te) /\ (ts <= te)%Z.
Proof.
  apply (date_condition_valid_iff (H := utc)). reflexivity.
Defined.

(** C9 on the text scenario. *)
Lemma text_filter_compares_lowercase_run :
  returns_iff
    (applyTextFilter (JStr "Senior Engineer") "contains"
       (obj1 "value" (JStr "engineer")))
    (substring_of "engineer" "senior engineer").
Proof.
  exact (proj1 (proj2 (text_filter_compares_lowercase (H := utc)
                         (JStr "Senior Engineer")
                         (obj1 "value" (JStr "engineer"))
                         "Senior Engineer" "engineer"
                         eq_refl eq_refl eq_refl))).
Defined.

(** C10: the payload of [name_contains_ann] under the operator
    [between], which the text family does not have, is as valid. *)
Lemma isValidFilterCondition_ignores_operator_run :
  isValidFilterCondition name_contains_ann =
  isValidFilterCondition name_between_ann.
Proof.
  apply (isValidFilterCondition_ignores_operator (H := utc)); reflexivity.
Defined.

Example unknown_operator_still_valid :
  isValidFilterCondition name_between_ann = true.
Proof. reflexivity. Qed.

End Runs.

(** * Further properties of the engine *)

(** ** The resolver *)

Section Resolver.

(** X1.  A path is resolved segment by segment: what lies after a dot is
    resolved in what the part before the dot resolves to. *)
Theorem getNestedValue_compose (obj : jsval) (p1 p2 : string) :
  getNestedValue obj (p1 ++ "." ++ p2) =
  getNestedValue (getNestedValue obj p1) p2.
Proof.
  unfold getNestedValue. rewrite split_dot_segment, fold_left_app. reflexivity.
Qed.

(** X2.  Nothing is read from an absent value: on a record that is [null]
    or [undefined], and past a segment that resolves to [null] or
    [undefined], the resolver gives [undefined] and does not throw. *)
Theorem getNestedValue_stops_at_absent (obj : jsval) (p1 p2 : string) :
  (is_nullish obj = true -> getNestedValue obj p1 = JUndefined) /\
  (is_nullish (getNestedValue obj p1) = true ->
   getNestedValue obj (p1 ++ "." ++ p2) = JUndefined).
Proof.
  unfold getNestedValue. split; intros Hv.
  - apply walk_nullish; [exact Hv|apply split_dot_nonempty].
  - rewrite split_dot_segment, fold_left_app.
    apply walk_nullish; [exact Hv|apply split_dot_nonempty].
Qed.

Lemma split_dot_plain (k : string) :
  (forall c, In c (units k) -> c <> "."%char) -> split_dot k = [k].
Proof.
  induction k as [|c k IH]; intros Hk; [reflexivity|].
  cbn [split_dot]. destruct (Ascii.eqb_spec c ".") as [E|_].
  - exfalso. apply (Hk c); [left; reflexivity|exact E].
  - rewrite IH; [reflexivity|].
    intros d Hd. apply Hk. right. exact Hd.
Qed.

(** X3.  A path without a dot is a plain property read: [obj?.[key]]. *)
Theorem getNestedValue_plain_key (obj : jsval) (k : string) :
  (forall c, In c (units k) -> c <> "."%char) ->
  getNestedValue obj k = opt_member obj k.
Proof.
  intros Hk. unfold getNestedValue. rewrite (split_dot_plain k Hk). reflexivity.
Qed.

End Resolver.

(** ** Operators and field types outside the tables *)

Section Dispatch.
Context `{Host}.

Lemma not_In_eqb (x : string) (l : list string) :
  ~ In x l -> forall y, In y l -> String.eqb x y = false.
Proof.
  intros Hx y Hy. destruct (String.eqb_spec x y) as [->|]; [contradiction|reflexivity].
Qed.

(** Rewrites the tests of an operator against the members of a list it
    is known not to be in. *)
Ltac operator_tests Hop :=
  repeat match goal with
         | |- context [String.eqb ?op ?lit] =>
             rewrite (not_In_eqb op _ Hop lit) by (simpl; tauto)
         end.

(** Runs a family to its answer, through the tests it makes and the
    faults it may meet on the way. *)
Ltac never_true Hop :=
  repeat first
    [ discriminate
    | progress operator_tests Hop
    | match goal with
      | |- bind ?r _ <> _ => destruct r; simpl
      | |- (if ?b then _ else _) <> _ => destruct b
      | |- (match ?v with _ => _ end) <> _ => destruct v
      end ].

(** X4.  A condition whose operator is not one [FIELD_TYPE_OPERATORS] lists
    for its field type matches no record: every family answers [false]
    on an operator it does not know (or faults on its payload before it
    looks at the operator). *)
Theorem operator_outside_table_never_matches (employee : jsval)
    (condition : FilterCondition) (fieldPath : option string) :
  (forall ops, lookup_key FIELD_TYPE_OPERATORS (fieldType condition) = Some ops ->
     ~ In (operator condition) ops) ->
  applyFilterCondition employee condition fieldPath <> Ok true.
Proof.
  intros Hops. unfold applyFilterCondition.
  generalize (getNestedValue employee (effective_path condition fieldPath)).
  intros v. revert Hops.
  generalize (operator condition) (value condition) (fieldType condition).
  intros op fv ty Hops.
  destruct (String.eqb_spec ty "text") as [->|_].
  { specialize (Hops _ eq_refl). unfold applyTextFilter. never_true Hops. }
  destruct (String.eqb_spec ty "number") as [->|_].
  { specialize (Hops _ eq_refl). unfold applyNumberFilter. never_true Hops. }
  destruct (String.eqb_spec ty "date") as [->|_].
  { specialize (Hops _ eq_refl). unfold applyDateFilter. never_true Hops. }
  destruct (String.eqb_spec ty "amount") as [->|_].
  { specialize (Hops _ eq_refl). unfold applyAmountFilter. never_true Hops. }
  destruct (String.eqb_spec ty "singleSelect") as [->|_].
  { specialize (Hops _ eq_refl). unfold applySingleSelectFilter.
    never_true Hops. }
  destruct (String.eqb_spec ty "multiSelect") as [->|_].
  { specialize (Hops _ eq_refl). unfold applyMultiSelectFilter.
    never_true Hops. }
  destruct (String.eqb_spec ty "boolean") as [->|_].
  { specialize (Hops _ eq_refl). unfold applyBooleanFilter. never_true Hops. }
  discriminate.
Qed.


End Dispatch.

(** ** Order on numbers

    The comparisons of doubles, from their specification in the
    Standard Library. *)

Section FloatOrder.

Lemma SFcompare_swap (x y : SpecFloat.spec_float) :
  SpecFloat.SFcompare y x = option_map CompOpp (SpecFloat.SFcompare x y).
Proof.
  destruct x as [sx|sx| |sx mx ex], y as [sy|sy| |sy my ey]; simpl;
    try reflexivity;
    try (destruct sx; reflexivity);
    try (destruct sy; reflexivity);
    try (destruct sx, sy; reflexivity).
  destruct sx, sy; try reflexivity;
    rewrite (Z.compare_antisym ex ey);
    destruct (ex ?= ey)%Z; simpl; try reflexivity;
    rewrite (Pos.compare_cont_antisym mx my Eq); reflexivity.
Qed.

Lemma float_compare_cases (x y : float) :
  PrimFloat.is_nan x = false -> PrimFloat.is_nan y = false ->
  exists c, SpecFloat.SFcompare (Prim2SF x) (Prim2SF y) = Some c.
Proof.
  unfold PrimFloat.is_nan. rewrite !FloatAxioms.eqb_spec. unfold SpecFloat.SFeqb.
  intros Hx Hy.
  destruct (Prim2SF x) as [sx|sx| |sx mx ex], (Prim2SF y) as [sy|sy| |sy my ey];
    simpl in *; try discriminate; eexists; reflexivity.
Qed.

(** Of [x < y], [x == y] and [x > y] exactly one holds when neither is
    NaN, and [<=], [>=] are the negations of [>], [<]. *)
Lemma float_order (x y : float) :
  PrimFloat.is_nan x = false -> PrimFloat.is_nan y = false ->
  (PrimFloat.ltb x y = true /\ PrimFloat.eqb x y = false /\ PrimFloat.ltb y x = false \/
   PrimFloat.ltb x y = false /\ PrimFloat.eqb x y = true /\ PrimFloat.ltb y x = false \/
   PrimFloat.ltb x y = false /\ PrimFloat.eqb x y = false /\ PrimFloat.ltb y x = true) /\
  PrimFloat.leb x y = negb (PrimFloat.ltb y x) /\
  PrimFloat.leb y x = negb (PrimFloat.ltb x y).
Proof.
  intros Hx Hy. destruct (float_compare_cases x y Hx Hy) as [c Hc].
  rewrite !FloatAxioms.ltb_spec, !FloatAxioms.leb_spec, FloatAxioms.eqb_spec.
  unfold SpecFloat.SFltb, SpecFloat.SFleb, SpecFloat.SFeqb.
  rewrite (SFcompare_swap (Prim2SF x) (Prim2SF y)), Hc.
  destruct c; simpl; intuition.
Qed.

Lemma float_leb_refl (x : float) :
  PrimFloat.is_nan x = false -> PrimFloat.leb x x = true.
Proof.
  unfold PrimFloat.is_nan. rewrite FloatAxioms.eqb_spec, FloatAxioms.leb_spec.
  unfold SpecFloat.SFeqb, SpecFloat.SFleb.
  destruct (SpecFloat.SFcompare _ _) as [[| |]|]; simpl; congruence.
Qed.

End FloatOrder.

(** ** The number and amount families *)

Section Numbers.
Context `{Host}.

Lemma applyNumberFilter_numbers (x y : float) (fv : jsval) (op : string) :
  member fv "value" = Ok (JNum y) ->
  PrimFloat.is_nan x = false -> PrimFloat.is_nan y = false ->
  applyNumberFilter (JNum x) op fv =
  Ok (if String.eqb op "equals" then PrimFloat.eqb x y
      else if String.eqb op "greaterThan" then PrimFloat.ltb y x
      else if String.eqb op "lessThan" then PrimFloat.ltb x y
      else if String.eqb op "greaterThanOrEqual" then PrimFloat.leb y x
      else if String.eqb op "lessThanOrEqual" then PrimFloat.leb x y
      else false).
Proof.
  intros Hm Hx Hy. unfold applyNumberFilter. simpl. rewrite Hm. simpl.
  unfold isNaN. simpl. rewrite Hx, Hy. simpl.
  split_ifs; reflexivity.
Qed.

(** X6.  On two numbers that are not NaN the five operators of the number
    family are the comparisons of one order: exactly one of [lessThan],
    [equals], [greaterThan] holds, [greaterThanOrEqual] is the negation
    of [lessThan] and [lessThanOrEqual] the negation of [greaterThan]. *)
Theorem number_operators_order (x y : float) (fv : jsval) :
  member fv "value" = Ok (JNum y) ->
  PrimFloat.is_nan x = false -> PrimFloat.is_nan y = false ->
  let run op := applyNumberFilter (JNum x) op fv in
  (run "lessThan" = Ok true /\ run "equals" = Ok false /\ run "greaterThan" = Ok false \/
   run "lessThan" = Ok false /\ run "equals" = Ok true /\ run "greaterThan" = Ok false \/
   run "lessThan" = Ok false /\ run "equals" = Ok false /\ run "greaterThan" = Ok true) /\
  run "greaterThanOrEqual" = (let* b := run "lessThan" in Ok (negb b)) /\
  run "lessThanOrEqual" = (let* b := run "greaterThan" in Ok (negb b)).
Proof.
  intros Hm Hx Hy run. unfold run.
  rewrite !(applyNumberFilter_numbers x y fv _ Hm Hx Hy). cbn -[PrimFloat.ltb PrimFloat.leb PrimFloat.eqb].
  destruct (float_order x y Hx Hy) as (Tri & Hle & Hge).
  rewrite Hle, Hge.
  repeat split; try reflexivity.
  destruct Tri as [(-> & -> & ->)|[(-> & -> & ->)|(-> & -> & ->)]]; auto.
Qed.

(** A value that is NaN as a number, or a filter number that is, matches
    under no operator of the family: not even under the negation-like
    [greaterThanOrEqual] and [lessThanOrEqual]. *)
Lemma number_NaN_never_matches (v fv filterNum : jsval) (op : string)
    (x : float) :
  member fv "value" = Ok filterNum ->
  ToNumber v = Ok x ->
  PrimFloat.is_nan x = true \/ isNaN filterNum = Ok true ->
  applyNumberFilter v op fv = Ok false.
Proof.
  intros Hm Hx Hnan. unfold applyNumberFilter.
  destruct (is_nullish v); [reflexivity|].
  rewrite Hx. simpl. rewrite Hm. simpl.
  destruct Hnan as [-> | Hn]; [reflexivity|].
  rewrite Hn. destruct (PrimFloat.is_nan x); reflexivity.
Qed.

(** X7.  The range of the amount family is closed at both ends: a value
    equal to [minAmount] matches exactly when it is not above
    [maxAmount], a value equal to [maxAmount] exactly when it is not
    below [minAmount]. *)
Theorem amount_between_inclusive (lo hi : float) (fv : jsval) :
  member fv "minAmount" = Ok (JNum lo) ->
  member fv "maxAmount" = Ok (JNum hi) ->
  PrimFloat.is_nan lo = false -> PrimFloat.is_nan hi = false ->
  applyAmountFilter (JNum lo) "between" fv = Ok (PrimFloat.leb lo hi) /\
  applyAmountFilter (JNum hi) "between" fv = Ok (PrimFloat.leb lo hi).
Proof.
  intros Hlo Hhi Nlo Nhi. unfold applyAmountFilter. simpl.
  rewrite Hlo, Hhi. simpl.
  unfold isNaN. simpl. rewrite Nlo, Nhi. simpl.
  rewrite (float_leb_refl lo Nlo), (float_leb_refl hi Nhi).
  rewrite andb_true_r. split; reflexivity.
Qed.

End Numbers.

(** ** The single-select family *)

Section SingleSelect.
Context `{Host}.

Lemma str_strict_eq_spec (s : string) (v : jsval) :
  str_strict_eq s v = true <-> v = JStr s.
Proof.
  destruct v; simpl; try (split; [discriminate|intros E; discriminate E]).
  rewrite String.eqb_eq. split; [intros ->; reflexivity|intros E; injection E as ->; reflexivity].
Qed.

(** X8.  For a value that is present and that [String] turns into the
    string [s], [is] holds exactly when the selected value is the very
    string [s] (a selected value that is not a string never equals it),
    and [isNot] is the negation of [is]. *)
Theorem singleSelect_is_isNot (v fv selected : jsval) (s : string) :
  is_nullish v = false ->
  ToString v = Ok s ->
  member fv "value" = Ok selected ->
  returns_iff (applySingleSelectFilter v "is" fv) (selected = JStr s) /\
  applySingleSelectFilter v "isNot" fv =
    (let* b := applySingleSelectFilter v "is" fv in Ok (negb b)).
Proof.
  intros Hv Hs Hm. unfold applySingleSelectFilter. rewrite Hv, Hs. simpl.
  rewrite Hm. simpl. split.
  - eexists. split; [reflexivity|]. apply str_strict_eq_spec.
  - reflexivity.
Qed.

End SingleSelect.

(** ** The validator on text and on dates *)

Section Trim.

Lemma units_app (s t : string) : units (s ++ t) = (units s ++ units t)%list.
Proof. induction s as [|c s IH]; simpl; [|rewrite IH]; reflexivity. Qed.

Lemma units_string_rev (s : string) (c : ascii) :
  In c (units (string_rev s)) <-> In c (units s).
Proof.
  induction s as [|d s IH]; simpl; [tauto|].
  rewrite units_app, in_app_iff, IH. simpl. tauto.
Qed.

(** [trimStart] leaves nothing exactly when every code unit is white
    space; otherwise what it leaves begins with one that is not. *)
Lemma trimStart_empty (s : string) :
  trimStart s = "" <-> forall c, In c (units s) -> is_white c = true.
Proof.
  induction s as [|d s IH]; simpl.
  - split; [intros _ c []|reflexivity].
  - destruct (is_white d) eqn:Hd.
    + rewrite IH. split.
      * intros Hs c [<-|Hc]; [exact Hd|apply Hs; exact Hc].
      * intros Hs c Hc. apply Hs. right. exact Hc.
    + split; [discriminate|].
      intros Hs. specialize (Hs d (or_introl eq_refl)). congruence.
Qed.

Lemma trimStart_units (s : string) (c : ascii) :
  In c (units (trimStart s)) -> In c (units s).
Proof.
  induction s as [|d s IH]; simpl; [tauto|].
  destruct (is_white d); simpl; tauto.
Qed.

Lemma trimStart_keeps_black (s : string) (c : ascii) :
  In c (units s) -> is_white c = false -> In c (units (trimStart s)).
Proof.
  induction s as [|d s IH]; simpl; [tauto|].
  intros [<-|Hc] Hw.
  - rewrite Hw. left. reflexivity.
  - destruct (is_white d); [apply IH; assumption|right; exact Hc].
Qed.

Lemma string_rev_empty (s : string) : string_rev s = "" <-> s = "".
Proof.
  destruct s as [|c s]; simpl; [tauto|].
  split; [|discriminate]. destruct (string_rev s); discriminate.
Qed.

(** [trim] leaves something exactly when the string has a code unit
    that is not white space. *)
Lemma trim_not_empty (s : string) :
  (0 <? String.length (trim s))%nat = true <->
  exists c, In c (units s) /\ is_white c = false.
Proof.
  assert (Hlen : forall t, (0 <? String.length t)%nat = true <-> t <> "").
  { intros [|c t]; simpl; split; (congruence || discriminate || auto). }
  rewrite Hlen. unfold trim. rewrite string_rev_empty, trimStart_empty. split.
  - intros Hne.
    assert (exists c, In c (units (string_rev (trimStart s))) /\ is_white c = false)
      as (c & Hc & Hw).
    { clear -Hne. induction (units (string_rev (trimStart s))) as [|d l IH].
      - exfalso. apply Hne. intros c [].
      - destruct (is_white d) eqn:Hd.
        + destruct IH as (c & Hc & Hw).
          * intros Hall. apply Hne. intros c [<-|Hc]; [exact Hd|apply Hall; exact Hc].
          * exists c. split; [right; exact Hc|exact Hw].
        + exists d. split; [left; reflexivity|exact Hd]. }
    exists c. split; [|exact Hw].
    apply trimStart_units. apply units_string_rev. exact Hc.
  - intros (c & Hc & Hw) Hall.
    assert (is_white c = true); [|congruence].
    apply Hall. apply units_string_rev. apply trimStart_keeps_black; assumption.
Qed.

End Trim.

Section ValidatorMore.
Context `{Host}.

(** X9.  A condition of type [text] is valid exactly when its [value] is a
    string with at least one code unit that is not white space; a
    payload whose [value] is not a string is invalid (the fault of
    calling [trim] on it is caught). *)
Theorem text_condition_valid_iff (condition : FilterCondition) :
  fieldType condition = "text" ->
  isValidFilterCondition condition = true <->
  exists s, member (value condition) "value" = Ok (JStr s) /\
            exists c, In c (units s) /\ is_white c = false.
Proof.
  intros Hty. unfold isValidFilterCondition, isValid_try. rewrite Hty.
  simpl (String.eqb _ _).
  destruct (member (value condition) "value") as [v|x]; simpl.
  2:{ split; [discriminate|intros (s & E & _); discriminate E]. }
  destruct v as [| |b|x|s|items|props]; simpl;
    try (split; [discriminate|intros (s & E & _); discriminate E]).
  - destruct b; simpl; split; try discriminate; intros (s & E & _); discriminate E.
  - destruct (negb _); simpl; split; try discriminate; intros (s & E & _); discriminate E.
  - destruct (String.eqb_spec s "") as [->|Hne]; simpl.
    + split; [discriminate|]. intros (s & E & c & Hc & _).
      injection E as <-. destruct Hc.
    + rewrite trim_not_empty. split.
      * intros Hc. exists s. split; [reflexivity|exact Hc].
      * intros (s' & E & Hc). injection E as <-. exact Hc.
Qed.

(** X10.  The validator and the date family agree: a valid date condition
    matches the records dated exactly its [startDate] or its [endDate],
    the normalised bounds being dates and the days of the two bounds
    whole days in the zone of the host. *)
Theorem valid_date_condition_includes_bounds (v : jsval)
    (condition : FilterCondition) (s e : jsval) (ts te a b : Z) :
  fieldType condition = "date" ->
  isValidFilterCondition condition = true ->
  is_nullish v = false ->
  member (value condition) "startDate" = Ok s ->
  member (value condition) "endDate" = Ok e ->
  NewDate s = Ok (Some ts) -> NewDate e = Ok (Some te) ->
  setHours (Some ts) 0 0 0 0 = Some a ->
  setHours (Some te) 23 59 59 999 = Some b ->
  whole_day (local_day ts) -> whole_day (local_day te) ->
  NewDate v = Ok (Some ts) \/ NewDate v = Ok (Some te) ->
  applyDateFilter v "between" (value condition) = Ok true.
Proof.
  intros Hty V Hv Hs He Ds De Ha Hb Ws We Hrec.
  assert (Hle : (ts <= te)%Z).
  { unfold isValidFilterCondition in V.
    rewrite (isValid_try_date condition Hty), Hs in V. simpl in V.
    rewrite Ds in V. simpl in V. rewrite He in V. simpl in V.
    rewrite De in V. simpl in V. apply Z.leb_le. exact V. }
  pose proof (whole_day_bounds ts Ws) as A.
  pose proof (whole_day_bounds te We) as B.
  rewrite <- (setHours_first ts a Ha) in A.
  rewrite <- (setHours_last te b Hb) in B.
  destruct Hrec as [Dv|Dv];
    rewrite (applyDateFilter_between v _ s e _ ts te Hv Hs He Dv Ds De), Ha, Hb;
    cbn [date_ge date_le]; f_equal; apply andb_true_iff;
    rewrite !Z.leb_le; lia.
Qed.

End ValidatorMore.

(** ** How runs of the executor compose *)

Section ExecutorMore.
Context `{Host}.

Lemma Array_every_app {A : Type} (f : A -> result bool) (xs ys : list A) :
  Array_every f (xs ++ ys) =
  (let* b := Array_every f xs in if b then Array_every f ys else Ok false).
Proof.
  induction xs as [|x xs IH]; [reflexivity|].
  rewrite <- app_comm_cons, !Array_every_cons.
  destruct (f x) as [[|]|e]; simpl; [exact IH|reflexivity|reflexivity].
Qed.

Lemma Array_filter_ext {A : Type} (f g : A -> result bool) (xs : list A) :
  (forall x, f x = g x) -> Array_filter f xs = Array_filter g xs.
Proof.
  intros E. induction xs as [|x xs IH]; [reflexivity|].
  rewrite !Array_filter_cons, E, IH. reflexivity.
Qed.

Lemma Array_filter_sequence {A : Type} (f g : A -> result bool) (xs : list A) :
  Array_filter (fun x => let* b := f x in if b then g x else Ok false) xs =
  (let* first := Array_filter f xs in Array_filter g first).
Proof.
  induction xs as [|x xs IH]; [reflexivity|].
  rewrite !Array_filter_cons, IH. clear IH.
  destruct (f x) as [[|]|e1]; simpl.
  - destruct (Array_filter f xs) as [kept|e]; simpl.
    + reflexivity.
    + destruct (g x) as [b|e2]; simpl; [reflexivity|].
      f_equal. apply exn_unique.
  - destruct (Array_filter f xs) as [kept|e]; simpl; [|reflexivity].
    destruct (Array_filter g kept); reflexivity.
  - reflexivity.
Qed.

(** X11.  The conditions of a list may be applied in two rounds: filtering by
    [cs1 ++ cs2] is filtering by [cs1] and then filtering what is left by
    [cs2]; the two sides return the same records, and one throws exactly
    when the other does. *)
Theorem filterEmployees_app (employees : list jsval)
    (cs1 cs2 : list FilterCondition) (fieldPaths : gmap string string) :
  filterEmployees employees (cs1 ++ cs2) fieldPaths =
  (let* first := filterEmployees employees cs1 fieldPaths in
   filterEmployees first cs2 fieldPaths).
Proof.
  destruct cs1 as [|c1 cs1]; [reflexivity|].
  destruct cs2 as [|c2 cs2].
  - rewrite app_nil_r.
    destruct (filterEmployees employees (c1 :: cs1) fieldPaths); reflexivity.
  - rewrite (filterEmployees_unfold employees ((c1 :: cs1) ++ c2 :: cs2))
      by discriminate.
    rewrite (filterEmployees_unfold employees (c1 :: cs1)) by discriminate.
    transitivity
      (let* first := Array_filter
                       (fun r => Array_every (evaluate fieldPaths r) (c1 :: cs1))
                       employees in
       Array_filter (fun r => Array_every (evaluate fieldPaths r) (c2 :: cs2)) first).
    + rewrite <- Array_filter_sequence.
      apply Array_filter_ext. intros r. apply Array_every_app.
    + destruct (Array_filter _ employees); simpl; [|reflexivity].
      rewrite filterEmployees_unfold by discriminate. reflexivity.
Qed.

Lemma Array_every_holds (fieldPaths : gmap string string) (r : jsval)
    (conditions : list FilterCondition) :
  forallb (holds fieldPaths r) conditions = true ->
  Array_every (evaluate fieldPaths r) conditions = Ok true.
Proof.
  induction conditions as [|c cs IH]; [reflexivity|].
  cbn [forallb]. rewrite andb_true_iff, Array_every_cons. intros [Hc Hcs].
  unfold holds in Hc.
  destruct (evaluate fieldPaths r c) as [[|]|]; try discriminate Hc.
  simpl. apply IH. exact Hcs.
Qed.

Lemma Array_filter_kept {A : Type} (f : A -> result bool) (xs : list A) :
  (forall x, In x xs -> f x = Ok true) -> Array_filter f xs = Ok xs.
Proof.
  induction xs as [|x xs IH]; intros Hf; [reflexivity|].
  rewrite Array_filter_cons, (Hf x (or_introl eq_refl)). simpl.
  rewrite IH; [reflexivity|]. intros y Hy. apply Hf. right. exact Hy.
Qed.

(** X12.  Filtering is idempotent: what a run returns passes the same
    conditions again unchanged, without a fault. *)
Theorem filterEmployees_idempotent (employees out : list jsval)
    (conditions : list FilterCondition) (fieldPaths : gmap string string) :
  filterEmployees employees conditions fieldPaths = Ok out ->
  filterEmployees out conditions fieldPaths = Ok out.
Proof.
  intros E. apply filterEmployees_Ok in E. subst out.
  destruct conditions as [|c cs]; [reflexivity|].
  rewrite filterEmployees_unfold by discriminate.
  apply Array_filter_kept. intros r Hr.
  unfold matching in Hr. apply filter_In in Hr as [_ Hall].
  apply Array_every_holds. exact Hall.
Qed.

(** X13.  The order of the conditions does not matter to the result: when no
    condition faults on a record of the collection, a rearranged list of
    conditions returns the same records in the same order. *)
Theorem filterEmployees_order_irrelevant (employees : list jsval)
    (cs cs' : list FilterCondition) (fieldPaths : gmap string string) :
  Permutation cs cs' ->
  (forall r c, In r employees -> In c cs ->
     exists b, evaluate fieldPaths r c = Ok b) ->
  filterEmployees employees cs' fieldPaths =
  filterEmployees employees cs fieldPaths.
Proof.
  intros Hperm Hev.
  destruct (filterEmployees_total employees cs fieldPaths Hev) as [out E].
  destruct (filterEmployees_total employees cs' fieldPaths) as [out' E'].
  { intros r c Hr Hc. apply Hev; [exact Hr|].
    apply (Permutation_in c (Permutation_sym Hperm) Hc). }
  rewrite E, E'. f_equal.
  apply filterEmployees_Ok in E. apply filterEmployees_Ok in E'. subst out out'.
  unfold matching. apply List.filter_ext. intros r.
  apply eq_true_iff_eq. rewrite !forallb_forall. split; intros Hall c Hc.
  - apply Hall. apply (Permutation_in c Hperm Hc).
  - apply Hall. apply (Permutation_in c (Permutation_sym Hperm) Hc).
Qed.

(** X14.  On conditions whose payloads have the shapes [src/types] declares
    for their field types, and records within the domain of the model
    (no condition on a member the path map inherits, paths that resolve
    within the data of the records, to values that convert to primitive
    values), the executor always returns, and returns the records that
    satisfy every condition, in their order. *)
Theorem filterEmployees_on_declared_payloads (employees : list jsval)
    (conditions : list FilterCondition) (fieldPaths : gmap string string) :
  (forall c, In c conditions ->
     payload_matches (fieldType c) (value c) = true) ->
  (forall r c, In r employees -> In c conditions ->
     in_scope fieldPaths r c = true) ->
  filterEmployees employees conditions fieldPaths =
  Ok (matching fieldPaths conditions employees).
Proof.
  intros Hshape Hscope.
  destruct (filterEmployees_total employees conditions fieldPaths) as [out E].
  - intros r c Hr Hc. apply evaluate_total; [apply Hscope; assumption|].
    apply matching_payload. apply Hshape. exact Hc.
  - rewrite E. f_equal. apply (filterEmployees_Ok _ _ _ _ E).
Qed.

End ExecutorMore.

(** * Properties of the catalog and of the user interface *)

(** ** The catalog *)

Section Catalog.
Import fieldConfig.

Lemma catalog_entries : Forall catalog_entry_ok FIELD_CONFIGS.
Proof.
  unfold FIELD_CONFIGS.
  repeat match goal with
         | |- Forall _ (_ :: _) => constructor
         | |- Forall _ [] => constructor
         end;
    (repeat split; try reflexivity; try discriminate;
     intros p E; simpl in E;
     first [discriminate E | injection E as <-; reflexivity]).
Qed.

Lemma find_config_In (configs : list FieldConfig) (k : string) (fc : FieldConfig) :
  find_config configs k = Some fc -> In fc configs /\ key fc = k.
Proof.
  unfold find_config. intros E. apply find_some in E as [Hin Hk].
  split; [exact Hin|]. apply String.eqb_eq. exact Hk.
Qed.

Lemma getFieldConfig_ok (k : string) (fc : FieldConfig) :
  getFieldConfig k = Some fc -> key fc = k /\ catalog_entry_ok fc.
Proof.
  intros E. apply find_config_In in E as [Hin Hk]. split; [exact Hk|].
  pose proof catalog_entries as Hall. rewrite Forall_forall in Hall.
  apply Hall. apply list_elem_of_In. exact Hin.
Qed.

(** X15.  The two tables agree and the keys are distinct: every field of the
    catalog is what a lookup of its key returns, it offers exactly the
    operators [FIELD_TYPE_OPERATORS] lists for its type, and the path of
    a nested field is its key. *)
Theorem catalog_consistent (fc : FieldConfig) :
  In fc FIELD_CONFIGS ->
  getFieldConfig (key fc) = Some fc /\
  lookup_key FIELD_TYPE_OPERATORS (type fc) = Some (operators fc) /\
  (forall p, path fc = Some p -> p = key fc).
Proof.
  intros Hin. pose proof catalog_entries as Hall. rewrite Forall_forall in Hall.
  destruct (Hall fc) as (H1 & H2 & _ & _ & H4); [apply list_elem_of_In; exact Hin|].
  auto.
Qed.

End Catalog.

(** ** The path map of the builder *)

Section Paths.
Context `{Host}.
Import fieldConfig Builder.

Lemma collect_paths_from (configs : list FieldConfig) (acc : gmap string string)
    (k p : string) :
  fold_left
    (fun paths config =>
       match path config with
       | Some p => if String.eqb p "" then paths else assign (key config) p paths
       | None => paths
       end)
    configs acc !! k = Some p ->
  acc !! k = Some p \/
  exists fc, In fc configs /\ key fc = k /\ path fc = Some p /\ p <> "".
Proof.
  revert acc. induction configs as [|fc rest IH]; intros acc E; [left; exact E|].
  cbn [fold_left] in E. apply IH in E as [E|(fc' & Hin & Hk & Hp & Hne)].
  - destruct (path fc) as [q|] eqn:Hq; [|left; exact E].
    destruct (String.eqb_spec q "") as [->|Hne]; [left; exact E|].
    unfold assign in E.
    destruct (String.eqb (key fc) "__proto__"); [left; exact E|].
    destruct (decide (key fc = k)) as [Hk|Hk].
    + subst k. rewrite lookup_insert_eq in E. injection E as <-.
      right. exists fc. repeat split; auto. left. reflexivity.
    + rewrite lookup_insert_ne in E by exact Hk. left. exact E.
  - right. exists fc'. repeat split; auto. right. exact Hin.
Qed.

(** An entry of a collected path map comes from a configuration: its
    key is the key of a configuration whose non-empty path it is. *)
Lemma collect_paths_sound (configs : list FieldConfig) (k p : string) :
  collect_paths configs !! k = Some p ->
  exists fc, In fc configs /\ key fc = k /\ path fc = Some p /\ p <> "".
Proof.
  intros E. apply collect_paths_from in E as [E|E]; [|exact E].
  rewrite lookup_empty in E. discriminate E.
Qed.

Lemma fieldPaths_identity (k p : string) : fieldPaths !! k = Some p -> p = k.
Proof.
  intros E. apply collect_paths_sound in E as (fc & Hin & Hk & Hp & _).
  pose proof catalog_entries as Hall. rewrite Forall_forall in Hall.
  destruct (Hall fc) as (_ & _ & _ & _ & Hpath); [apply list_elem_of_In; exact Hin|].
  rewrite <- Hk. apply Hpath. exact Hp.
Qed.

(** No key of the catalog is a member a plain object inherits. *)
Lemma catalog_key_own (fc : FieldConfig) :
  In fc FIELD_CONFIGS -> inherited (key fc) = false.
Proof.
  intros Hin.
  assert (Hall : forallb (fun fc => negb (inherited (key fc))) FIELD_CONFIGS = true)
    by reflexivity.
  rewrite forallb_forall in Hall. apply negb_true_iff. apply Hall. exact Hin.
Qed.

Lemma fieldPaths_own (k p : string) :
  fieldPaths !! k = Some p -> inherited k = false.
Proof.
  intros E. apply collect_paths_sound in E as (fc & Hin & Hk & _).
  rewrite <- Hk. apply catalog_key_own. exact Hin.
Qed.

Lemma evaluate_fieldPaths (r : jsval) (c : FilterCondition) :
  evaluate fieldPaths r c = evaluate ∅ r c.
Proof.
  unfold evaluate, path_of. rewrite lookup_empty.
  destruct (fieldPaths !! field c) as [p|] eqn:E; [|reflexivity].
  rewrite (fieldPaths_own _ _ E).
  apply fieldPaths_identity in E. subst p. simpl.
  unfold applyFilterCondition, effective_path.
  destruct (String.eqb (field c) ""); reflexivity.
Qed.

(** X16.  The path map the builder passes to the executor changes nothing:
    every path of the catalog is the key of its field, so filtering with
    the map is filtering without one, for all records and conditions. *)
Theorem fieldPaths_redundant (employees : list jsval)
    (conditions : list FilterCondition) :
  filterEmployees employees conditions fieldPaths =
  filterEmployees employees conditions ∅.
Proof.
  destruct conditions as [|c cs]; [reflexivity|].
  rewrite !filterEmployees_unfold by discriminate.
  apply Array_filter_ext. intros r.
  generalize (c :: cs). intros l.
  induction l as [|c' l IH]; [reflexivity|].
  rewrite !Array_every_cons, evaluate_fieldPaths, IH. reflexivity.
Qed.

End Paths.

(** ** Applying the filters *)

Section ApplyFilters.
Context `{Host}.
Import Builder.

Lemma validate_from (cs : list FilterCondition) (errors : gmap string bool)
    (flag : bool) :
  fold_left
    (fun '(errors, hasErrors) condition =>
       if negb (isValidFilterCondition condition)
       then (assign (id condition) true errors, true)
       else (errors, hasErrors))
    cs (errors, flag) =
  (fold_left
     (fun errors c =>
        if isValidFilterCondition c then errors else assign (id c) true errors)
     cs errors,
   flag || existsb (fun c => negb (isValidFilterCondition c)) cs).
Proof.
  revert errors flag. induction cs as [|c cs IH]; intros errors flag.
  - simpl. rewrite orb_false_r. reflexivity.
  - cbn [fold_left existsb]. destruct (isValidFilterCondition c); simpl.
    + apply IH.
    + rewrite IH. rewrite orb_true_r. reflexivity.
Qed.

Lemma assign_flag (k i : string) (errors : gmap string bool) :
  assign k true errors !! i = Some true <->
  errors !! i = Some true \/ (k = i /\ i <> "__proto__").
Proof.
  unfold assign. destruct (String.eqb_spec k "__proto__") as [->|Hk].
  - split; [auto|]. intros [E|[<- Hne]]; [exact E|contradiction].
  - destruct (decide (k = i)) as [<-|Hi].
    + rewrite lookup_insert_eq. split; auto.
    + rewrite lookup_insert_ne by exact Hi. split; [auto|].
      intros [E|[E _]]; [exact E|contradiction].
Qed.

Lemma flagged_from (cs : list FilterCondition) (errors : gmap string bool)
    (i : string) :
  fold_left
    (fun errors c =>
       if isValidFilterCondition c then errors else assign (id c) true errors)
    cs errors !! i = Some true <->
  errors !! i = Some true \/
  i <> "__proto__" /\
  exists c, In c cs /\ id c = i /\ isValidFilterCondition c = false.
Proof.
  revert errors. induction cs as [|c cs IH]; intros errors.
  - simpl. split; [auto|]. intros [E|(_ & c & [] & _)]. exact E.
  - cbn [fold_left]. rewrite IH. clear IH.
    destruct (isValidFilterCondition c) eqn:V.
    + split.
      * intros [E|(Hi & c' & Hin & Hid & Hv)]; [left; exact E|].
        right. split; [exact Hi|]. exists c'. repeat split; auto. right. exact Hin.
      * intros [E|(Hi & c' & [<-|Hin] & Hid & Hv)]; [left; exact E|congruence|].
        right. split; [exact Hi|]. exists c'. auto.
    + rewrite assign_flag. split.
      * intros [[E|[Hid Hi]]|(Hi & c' & Hin & Hid & Hv)].
        -- left. exact E.
        -- right. split; [exact Hi|]. exists c. repeat split; auto.
           left. reflexivity.
        -- right. split; [exact Hi|]. exists c'. repeat split; auto.
           right. exact Hin.
      * intros [E|(Hi & c' & [<-|Hin] & Hid & Hv)].
        -- left. left. exact E.
        -- left. right. auto.
        -- right. split; [exact Hi|]. exists c'. auto.
Qed.

(** Every condition is valid where none is flagged. *)
Lemma none_rejected (cs : list FilterCondition) :
  existsb (fun c => negb (isValidFilterCondition c)) cs = false ->
  forall c, In c cs -> isValidFilterCondition c = true.
Proof.
  intros Hex c Hc. destruct (isValidFilterCondition c) eqn:V; [reflexivity|].
  assert (existsb (fun c => negb (isValidFilterCondition c)) cs = true)
    as Hyes; [|congruence].
  apply existsb_exists. exists c. rewrite V. auto.
Qed.


(** X17.  On records within the domain of the model for the conditions
    held, [handleApplyFilters] does not throw.  It flags exactly the ids
    of the conditions the validator rejects (but the id [__proto__],
    which cannot be flagged); if there is one, the data shown stay as
    they were and the executor is not run; if there is none, the data
    shown become the records of [data] that satisfy every condition, in
    their order. *)
Theorem handleApplyFilters_validates_first (data : list jsval) (st : State) :
  (forall r c, In r data -> In c (conditions st) ->
     in_scope fieldPaths r c = true) ->
  exists st',
    handleApplyFilters data st = Ok st' /\
    conditions st' = conditions st /\
    (forall i, conditionErrors st' !! i = Some true <->
       i <> "__proto__" /\
       exists c, In c (conditions st) /\ id c = i /\
                 isValidFilterCondition c = false) /\
    ((exists c, In c (conditions st) /\ isValidFilterCondition c = false) ->
     filteredData st' = filteredData st) /\
    ((forall c, In c (conditions st) -> isValidFilterCondition c = true) ->
     filteredData st' = matching fieldPaths (conditions st) data).
Proof.
  intros Hscope.
  unfold handleApplyFilters, validate. rewrite validate_from. simpl (false || _).
  assert (Hflags : forall i,
            fold_left
              (fun errors c =>
                 if isValidFilterCondition c then errors
                 else assign (id c) true errors)
              (conditions st) (∅ : gmap string bool) !! i = Some true <->
            i <> "__proto__" /\
            exists c, In c (conditions st) /\ id c = i /\
                      isValidFilterCondition c = false).
  { intros i. rewrite flagged_from, lookup_empty. split.
    - intros [E|E]; [discriminate E|exact E].
    - intros E. right. exact E. }
  destruct (existsb _ (conditions st)) eqn:Hex.
  - eexists. split; [reflexivity|]. cbn [conditions conditionErrors filteredData].
    repeat split; try apply Hflags; auto.
    intros Hall. apply existsb_exists in Hex as (c & Hc & Hv).
    rewrite (Hall c Hc) in Hv. discriminate Hv.
  - pose proof (none_rejected _ Hex) as Hall.
    destruct (filterEmployees_total data (conditions st) fieldPaths) as [out E].
    { intros r c Hr Hc. apply evaluate_total; [apply Hscope; assumption|].
      apply valid_payload. apply Hall. exact Hc. }
    rewrite E. simpl. eexists. split; [reflexivity|].
    cbn [conditions conditionErrors filteredData].
    repeat split; try apply Hflags; auto.
    + intros (c & Hc & Hv). rewrite (Hall c Hc) in Hv. discriminate Hv.
    + intros _. apply (filterEmployees_Ok _ _ _ _ E).
Qed.

End ApplyFilters.

(** ** Rows and their callbacks *)

Section Rows.
Import Builder.

Lemma untouched_rows (i : string) (updated : FilterCondition)
    (cs : list FilterCondition) :
  ~ In i (map id cs) ->
  map (fun c => if String.eqb (id c) i then updated else c) cs = cs /\
  List.filter (fun c => negb (String.eqb (id c) i)) cs = cs.
Proof.
  induction cs as [|c cs IH]; intros Hi; [split; reflexivity|].
  cbn [map List.filter]. simpl in Hi.
  destruct (String.eqb_spec (id c) i) as [E|_]; [tauto|]. simpl.
  destruct IH as [-> ->]; [tauto|]. split; reflexivity.
Qed.

(** X18.  When the ids of the conditions are distinct, the callbacks of a row
    touch that row and no other: [handleUpdateCondition] puts the new
    condition in its place, [handleRemoveCondition] takes the row out
    and clears its error flag; the others keep their places. *)
Theorem row_callbacks_touch_one_row (st : State) (row : nat)
    (c updated : FilterCondition) :
  NoDup (map id (conditions st)) ->
  nth_error (conditions st) row = Some c ->
  conditions (handleUpdateCondition (id c) updated st) =
    <[row := updated]> (conditions st) /\
  conditions (handleRemoveCondition (id c) st) = delete row (conditions st) /\
  conditionErrors (handleRemoveCondition (id c) st) !! id c = None.
Proof.
  unfold handleUpdateCondition, handleRemoveCondition.
  cbn [conditions conditionErrors].
  intros Hnd Hrow. split; [|split; [|apply lookup_delete_eq]].
  - revert row Hrow Hnd. induction (conditions st) as [|d cs IH];
      intros [|row] Hrow Hnd; try discriminate Hrow.
    + injection Hrow as ->. cbn [map]. rewrite String.eqb_refl.
      apply NoDup_cons in Hnd as [Hnotin _].
      rewrite list_elem_of_In in Hnotin.
      destruct (untouched_rows (id c) updated cs Hnotin) as [-> _]. reflexivity.
    + cbn [map] in *. apply NoDup_cons in Hnd as [Hnotin Hnd].
      assert (id d <> id c) as Hne.
      { intros E. apply Hnotin. rewrite E. apply list_elem_of_In.
        apply in_map. simpl in Hrow. apply (nth_error_In _ _ Hrow). }
      destruct (String.eqb_spec (id d) (id c)) as [E|_]; [contradiction|].
      cbn. f_equal. apply (IH row Hrow Hnd).
  - revert row Hrow Hnd. induction (conditions st) as [|d cs IH];
      intros [|row] Hrow Hnd; try discriminate Hrow.
    + injection Hrow as ->. cbn [List.filter]. rewrite String.eqb_refl. simpl.
      apply NoDup_cons in Hnd as [Hnotin _].
      rewrite list_elem_of_In in Hnotin.
      destruct (untouched_rows (id c) c cs Hnotin) as [_ ->]. reflexivity.
    + cbn [map] in *. apply NoDup_cons in Hnd as [Hnotin Hnd].
      assert (id d <> id c) as Hne.
      { intros E. apply Hnotin. rewrite E. apply list_elem_of_In.
        apply in_map. simpl in Hrow. apply (nth_error_In _ _ Hrow). }
      cbn [List.filter].
      destruct (String.eqb_spec (id d) (id c)) as [E|_]; [contradiction|].
      cbn. f_equal. apply (IH row Hrow Hnd).
Qed.

End Rows.

(** ** The sort of the table *)

Section Sorting.
Import Table.

(** X22.  A click on a column other than the current one sorts by it in
    ascending order; further clicks on it alternate between descending
    and ascending, so three clicks in a row are as one. *)
Theorem handleRequestSort_toggles (property : string) (st : Sort) :
  orderBy (handleRequestSort property st) = property /\
  (orderBy st <> property -> order (handleRequestSort property st) = asc) /\
  order (handleRequestSort property (handleRequestSort property st)) =
    match order (handleRequestSort property st) with asc => desc | desc => asc end /\
  handleRequestSort property
    (handleRequestSort property (handleRequestSort property st)) =
  handleRequestSort property st.
Proof.
  unfold handleRequestSort. cbn [orderBy order].
  rewrite String.eqb_refl.
  destruct (String.eqb_spec (orderBy st) property) as [E|N];
    destruct (order st); simpl; repeat split; try reflexivity; try tauto.
Qed.

End Sorting.

(** ** What the user interface can build *)

Section Reachable.
Context `{Host}.
Variable parseFloat : string -> float.
Import fieldConfig Builder.














(** X20.  A well-formed condition has an operator [FIELD_TYPE_OPERATORS] lists
    for its field type, and evaluating it throws on no record that is
    plain along the path it is evaluated on, whether the validator
    accepts it or not. *)
Theorem well_formed_condition_runs (c : FilterCondition) (employee : jsval)
    (fieldPath : option string) :
  well_formed c ->
  plain_along employee (effective_path c fieldPath) = true ->
  (exists ops, lookup_key FIELD_TYPE_OPERATORS (fieldType c) = Some ops /\
               In (operator c) ops) /\
  exists b, applyFilterCondition employee c fieldPath = Ok b.
Proof.
  intros (fc & Hfc & Hty & Hop & Hshape) Hplain.
  destruct (getFieldConfig_ok _ _ Hfc) as (_ & _ & Htable & _).
  split.
  - exists (operators fc). rewrite Hty. auto.
  - unfold plain_along in Hplain. apply andb_true_iff in Hplain as [_ Hv].
    apply condition_total; [exact Hv|].
    apply matching_payload. exact Hshape.
Qed.

End Reachable.

Section Defaults.
Context `{Host}.
Import fieldConfig.

(** X21.  A field of type number, amount or boolean is valid as soon as it is
    chosen, with the default payload 0, 0 to 0 or false; a field of any
    other type is invalid until the user enters a value (on a host whose
    date parser refuses the empty string). *)
Theorem default_payload_valid_iff (c c' : FilterCondition) (k : string) :
  Date_parse "" = None ->
  ConditionRow.handleFieldChange c k = Some c' ->
  isValidFilterCondition c' = true <->
  In (fieldType c') ["number"; "amount"; "boolean"].
Proof.
  intros Hparse. unfold ConditionRow.handleFieldChange.
  destruct (getFieldConfig k) as [fc|] eqn:E; [|discriminate].
  intros E'. injection E' as <-.
  apply find_config_In in E as [Hin _].
  unfold isValidFilterCondition, isValid_try. cbn [fieldType value].
  unfold FIELD_CONFIGS in Hin. simpl in Hin.
  repeat (destruct Hin as [<-|Hin]); try contradiction;
    cbn -[NewDate In]; unfold NewDate; rewrite ?Hparse; cbn;
    split; try discriminate; intuition discriminate.
Qed.

End Defaults.

(** * More concrete runs on the reference host *)

Module MoreRuns.
Import RefHost Sample.

Lemma getNestedValue_stops_at_absent_run :
  getNestedValue ann ("address" ++ "." ++ "city") = JUndefined.
Proof.
  apply (proj2 (getNestedValue_stops_at_absent ann "address" "city")).
  reflexivity.
Defined.

Lemma getNestedValue_plain_key_run :
  getNestedValue ann "name" = opt_member ann "name".
Proof.
  apply getNestedValue_plain_key.
  intros c [<-|[<-|[<-|[<-|[]]]]]; discriminate.
Defined.

Lemma operator_outside_table_never_matches_run :
  applyFilterCondition ann name_between_ann None <> Ok true.
Proof.
  apply (operator_outside_table_never_matches (H := utc)).
  intros ops E. injection E as <-. simpl. intuition discriminate.
Defined.


Lemma number_operators_order_run :
  applyNumberFilter (JNum 3) "greaterThanOrEqual" (obj1 "value" (JNum 5)) =
  (let* b := applyNumberFilter (JNum 3) "lessThan" (obj1 "value" (JNum 5)) in
   Ok (negb b)).
Proof.
  exact (proj1 (proj2 (number_operators_order (H := utc) 3 5
                         (obj1 "value" (JNum 5)) eq_refl eq_refl eq_refl))).
Defined.

Lemma amount_between_inclusive_run :
  applyAmountFilter (JNum 90000) "between" (value salary_from_90000) =
    Ok (PrimFloat.leb 90000 999999) /\
  applyAmountFilter (JNum 999999) "between" (value salary_from_90000) =
    Ok (PrimFloat.leb 90000 999999).
Proof.
  apply (amount_between_inclusive (H := utc)); reflexivity.
Defined.

Lemma singleSelect_is_isNot_run :
  returns_iff
    (applySingleSelectFilter (JStr "Engineering") "is"
       (value department_is_engineering))
    (JStr "Engineering" = JStr "Engineering") /\
  applySingleSelectFilter (JStr "Engineering") "isNot"
    (value department_is_engineering) =
  (let* b := applySingleSelectFilter (JStr "Engineering") "is"
               (value department_is_engineering) in
   Ok (negb b)).
Proof.
  apply (singleSelect_is_isNot (H := utc) (JStr "Engineering")
           (value department_is_engineering) (JStr "Engineering") "Engineering");
    reflexivity.
Defined.

Lemma text_condition_valid_iff_run :
  isValidFilterCondition name_contains_ann = true <->
  exists s, member (value name_contains_ann) "value" = Ok (JStr s) /\
            exists c, In c (units s) /\ is_white c = false.
Proof.
  apply (text_condition_valid_iff (H := utc)). reflexivity.
Defined.

Lemma valid_date_condition_includes_bounds_run :
  applyDateFilter (JStr "2023-06-16") "between"
    (value (cond "joinDate" "between" "date"
              (date_range "2023-06-15" "2023-06-16"))) = Ok true.
Proof.
  apply (valid_date_condition_includes_bounds (H := utc)
           (JStr "2023-06-16")
           (cond "joinDate" "between" "date" (date_range "2023-06-15" "2023-06-16"))
           (JStr "2023-06-15") (JStr "2023-06-16")
           1686787200000 1686873600000 1686787200000 1686959999999);
    try reflexivity; try apply Runs.utc_whole_day.
  right. reflexivity.
Defined.

Lemma filterEmployees_idempotent_run :
  filterEmployees [senior]
    [department_is_engineering; salary_from_90000] ∅ = Ok [senior].
Proof.
  apply (filterEmployees_idempotent (H := utc) [senior; junior]).
  reflexivity.
Defined.

Lemma filterEmployees_order_irrelevant_run :
  filterEmployees [senior; junior]
    [salary_from_90000; department_is_engineering] ∅ =
  filterEmployees [senior; junior]
    [department_is_engineering; salary_from_90000] ∅.
Proof.
  apply (filterEmployees_order_irrelevant (H := utc)).
  - apply perm_swap.
  - intros r c [<-|[<-|[]]] [<-|[<-|[]]]; eexists; reflexivity.
Defined.

Lemma filterEmployees_on_declared_payloads_run :
  filterEmployees [senior; junior]
    [department_is_engineering; salary_from_90000] ∅ =
  Ok (matching ∅ [department_is_engineering; salary_from_90000]
        [senior; junior]).
Proof.
  apply (filterEmployees_on_declared_payloads (H := utc)).
  - intros c [<-|[<-|[]]]; reflexivity.
  - intros r c [<-|[<-|[]]] [<-|[<-|[]]]; reflexivity.
Defined.

Lemma catalog_consistent_run :
  fieldConfig.getFieldConfig "salary" =
    Some {| fieldConfig.key := "salary"; fieldConfig.label := "Salary";
            fieldConfig.type := "amount"; fieldConfig.operators := ["between"];
            fieldConfig.options := None; fieldConfig.path := None |} /\
  lookup_key FIELD_TYPE_OPERATORS "amount" = Some ["between"] /\
  (forall p, None = Some p -> p = "salary").
Proof.
  apply (catalog_consistent
           {| fieldConfig.key := "salary"; fieldConfig.label := "Salary";
              fieldConfig.type := "amount"; fieldConfig.operators := ["between"];
              fieldConfig.options := None; fieldConfig.path := None |}).
  unfold fieldConfig.FIELD_CONFIGS. simpl. tauto.
Defined.

Lemma row_callbacks_touch_one_row_run :
  let st := {| Builder.conditions := [name_contains_ann; name_between_ann];
               Builder.conditionErrors := ∅;
               Builder.filteredData := [] |} in
  Builder.conditions (Builder.handleUpdateCondition "c2" salary_from_90000 st) =
    <[1%nat := salary_from_90000]> (Builder.conditions st) /\
  Builder.conditions (Builder.handleRemoveCondition "c2" st) =
    delete 1%nat (Builder.conditions st) /\
  Builder.conditionErrors (Builder.handleRemoveCondition "c2" st) !! "c2" = None.
Proof.
  intros st.
  apply (row_callbacks_touch_one_row st 1 name_between_ann salary_from_90000).
  - simpl. repeat constructor; rewrite ?list_elem_of_In; simpl; intuition discriminate.
  - reflexivity.
Defined.

Lemma well_formed_condition_runs_run :
  (exists ops,
     lookup_key FIELD_TYPE_OPERATORS (fieldType department_is_engineering) = Some ops /\
     In (operator department_is_engineering) ops) /\
  exists b, applyFilterCondition senior department_is_engineering None = Ok b.
Proof.
  apply (well_formed_condition_runs (H := utc)).
  - eexists. repeat split; try reflexivity. simpl. tauto.
  - reflexivity.
Defined.

Lemma handleApplyFilters_validates_first_run :
  let st := {| Builder.conditions := [department_is_engineering; salary_from_90000];
               Builder.conditionErrors := ∅;
               Builder.filteredData := [] |} in
  exists st',
    Builder.handleApplyFilters [senior; junior] st = Ok st' /\
    Builder.conditions st' = Builder.conditions st /\
    (forall i, Builder.conditionErrors st' !! i = Some true <->
       i <> "__proto__" /\
       exists c, In c (Builder.conditions st) /\ id c = i /\
                 isValidFilterCondition c = false) /\
    ((exists c, In c (Builder.conditions st) /\ isValidFilterCondition c = false) ->
     Builder.filteredData st' = Builder.filteredData st) /\
    ((forall c, In c (Builder.conditions st) -> isValidFilterCondition c = true) ->
     Builder.filteredData st' =
     matching Builder.fieldPaths (Builder.conditions st) [senior; junior]).
Proof.
  intros st.
  apply (handleApplyFilters_validates_first (H := utc) [senior; junior] st).
  intros r c [<-|[<-|[]]] [<-|[<-|[]]]; vm_compute; reflexivity.
Defined.


Lemma default_payload_valid_iff_run :
  isValidFilterCondition
    {| id := "c1"; field := "salary"; operator := "between";
       value := JObj [("minAmount", JNum 0); ("maxAmount", JNum 0)];
       fieldType := "amount" |}
  = true <->
  In "amount" ["number"; "amount"; "boolean"].
Proof.
  exact (default_payload_valid_iff (H := utc) name_contains_ann
           {| id := "c1"; field := "salary"; operator := "between";
              value := JObj [("minAmount", JNum 0); ("maxAmount", JNum 0)];
              fieldType := "amount" |}
           "salary" eq_refl eq_refl).
Defined.

End MoreRuns.
